(** * Antra BMS coordinator: protocol engine

    A shallow embedding of [custom_components/antra_bms/coordinator.py]:
    the frame codec ([_build_command], [_verify_checksum]), the transport
    read loop ([_read_response]), the field decoder ([convert_signed]), the
    header and battery block parsers and the poll cycle
    ([_async_update_data]).

    Conventions.
    - Python [bytes] and ASCII-decoded [str] are both [list ascii]; a byte
      is an [ascii] (8 bits), [ord] is [nat_of_ascii].
    - Python [int] is [Z].
    - A Python [float] obtained as [int / scale] is kept as the exact
      quotient in [Q], and a scale is the exact value of the number
      passed. Python returns that quotient rounded to binary64 (to an
      infinity when it is out of range) as long as the integer converts
      to a float without rounding, that is up to [2^53] in magnitude;
      every field the parsers read has 2 or 4 digits. An integer too
      large for a float raises [OverflowError].
    - A raised exception is the [Raise] branch of [result]. Logging calls
      have no effect on the values computed and are left out. *)

From Stdlib Require Import ZArith QArith Ascii String List Lia.
From stdpp Require Import base list strings gmap.

Local Open Scope Z_scope.

(** ** Python values *)

Abbreviation str := (list ascii).
Abbreviation bytes := (list ascii).

Definition lit (s : string) : list ascii := list_ascii_of_string s.

Definition ord (c : ascii) : Z := Z.of_nat (nat_of_ascii c).

Definition SOI : ascii := "~"%char.
Definition EOI : ascii := "013"%char.

Inductive exn : Type :=
| ValueError
| UnicodeDecodeError
| ZeroDivisionError
| OverflowError
| IOError.

Inductive result (A : Type) : Type :=
| Ok (a : A)
| Raise (e : exn).
Arguments Ok {A} a.
Arguments Raise {A} e.

#[global] Instance result_bind : MBind result := λ A B k r,
  match r with
  | Ok a => k a
  | Raise e => Raise e
  end.
#[global] Instance result_ret : MRet result := λ A a, Ok a.

Definition is_ok {A} (r : result A) : bool :=
  match r with Ok _ => true | Raise _ => false end.

(** *** Slices: [s[lo:hi]] with Python's clamping and negative indices *)

Definition clamp_index (n i : Z) : Z :=
  if i <? 0 then Z.max (i + n) 0 else Z.min i n.

Definition slice {A} (s : list A) (lo hi : option Z) : list A :=
  let n := Z.of_nat (length s) in
  let a := match lo with Some i => clamp_index n i | None => 0 end in
  let b := match hi with Some j => clamp_index n j | None => n end in
  take (Z.to_nat (b - a)) (drop (Z.to_nat a) s).

(** [s[a:b]], [s[a:]] and [s[:b]] *)
Definition slice_ab {A} (s : list A) (a b : Z) : list A := slice s (Some a) (Some b).
Definition slice_a {A} (s : list A) (a : Z) : list A := slice s (Some a) None.
Definition slice_b {A} (s : list A) (b : Z) : list A := slice s None (Some b).

(** *** [bytes.decode('ascii')] and [bytes.decode('ascii', errors='ignore')] *)

Definition is_ascii (c : ascii) : bool := ord c <? 128.

Definition decode_ascii (b : bytes) : result str :=
  if forallb is_ascii b then Ok b else Raise UnicodeDecodeError.

Definition decode_ascii_ignore (b : bytes) : str := filter (fun c => is_ascii c = true) b.

(** *** [int(s, 16)] on an ASCII string

    Leading and trailing whitespace is skipped, one sign is accepted, then
    an optional [0x]/[0X] prefix (which may be followed by one underscore),
    then hexadecimal digits of either case, single underscores allowed
    between digits. Anything else raises [ValueError]. *)

Definition is_space (c : ascii) : bool :=
  let n := ord c in ((9 <=? n) && (n <=? 13)) || (n =? 32).

Definition digit_value (c : ascii) : option Z :=
  let n := ord c in
  if (48 <=? n) && (n <=? 57) then Some (n - 48)
  else if (65 <=? n) && (n <=? 70) then Some (n - 55)
  else if (97 <=? n) && (n <=? 102) then Some (n - 87)
  else None.

Definition is_underscore (c : ascii) : bool := ord c =? 95.

Fixpoint skip_spaces (s : str) : str :=
  match s with
  | c :: r => if is_space c then skip_spaces r else s
  | [] => []
  end.

(** The digit loop: [prev_us] records that the previous character was an
    underscore, [nd] counts the digits seen. *)
Fixpoint scan_digits (s : str) (prev_us : bool) (acc : Z) (nd : nat)
  : option (Z * nat * str) :=
  match s with
  | c :: r =>
      if is_underscore c then
        if prev_us then None else scan_digits r true acc nd
      else
        match digit_value c with
        | Some d => scan_digits r false (acc * 16 + d) (S nd)
        | None => if prev_us then None else Some (acc, nd, s)
        end
  | [] => if prev_us then None else Some (acc, nd, [])
  end.

Definition strip_sign (s : str) : Z * str :=
  match s with
  | c :: r =>
      if ord c =? 43 then (1, r)
      else if ord c =? 45 then (-1, r)
      else (1, s)
  | [] => (1, [])
  end.

Definition strip_prefix (s : str) : str :=
  match s with
  | z :: x :: r =>
      if (ord z =? 48) && ((ord x =? 120) || (ord x =? 88)) then
        match r with
        | u :: r' => if is_underscore u then r' else r
        | [] => r
        end
      else s
  | _ => s
  end.

Definition int16 (s : str) : result Z :=
  let '(sign, s1) := strip_sign (skip_spaces s) in
  let s2 := strip_prefix s1 in
  match s2 with
  | c :: _ =>
      if is_underscore c then Raise ValueError
      else
        match scan_digits s2 false 0 0 with
        | Some (v, nd, rest) =>
            match nd, skip_spaces rest with
            | S _, [] => Ok (sign * v)
            | _, _ => Raise ValueError
            end
        | None => Raise ValueError
        end
  | [] => Raise ValueError
  end.

(** *** [f"{n:0wX}"]: upper-case hexadecimal, zero-padded to width [w],
    the sign (if any) counted in the width and put before the padding *)

Definition hex_char (d : Z) : ascii :=
  nth (Z.to_nat d) (lit "0123456789ABCDEF") "0"%char.

Fixpoint hex_digits_fuel (fuel : nat) (n : Z) (acc : str) : str :=
  match fuel with
  | O => acc
  | S f =>
      let acc' := hex_char (n mod 16) :: acc in
      if n <? 16 then acc' else hex_digits_fuel f (n / 16) acc'
  end.

Definition hex_digits (n : Z) : str :=
  hex_digits_fuel (S (Z.to_nat (Z.log2 n))) n [].

Definition format_X (width : nat) (n : Z) : str :=
  let sign := if n <? 0 then ["-"%char] else [] in
  let ds := hex_digits (Z.abs n) in
  sign ++ replicate (width - length sign - length ds)%nat "0"%char ++ ds.

(** ** The coordinator *)

Definition sum_ord (s : list ascii) : Z := foldr (fun c acc => ord c + acc) 0 s.

(** [_calculate_checksum]: [data[1:-3]] is summed as bytes. *)
Definition _calculate_checksum (data : bytes) : Z :=
  let sum_val := sum_ord (slice_ab data 1 (-3)) in
  let remainder := sum_val mod 65536 in
  Z.lxor remainder 0xFFFF + 1.

(** The part of [AntraDataCoordinator] the protocol engine reads and writes.
    [data] is the snapshot dictionary: keys are the strings ["raw_system"]
    and ["group"] and the 1-based battery numbers. *)

Module Header.
Record t : Type := mk {
  voltage : Q;
  current : Q;
  total_capacity : Z;
  remaining_capacity : Z;
  soc : Z;
  max_ambient_temp : Q;
  min_ambient_temp : Q;
  max_cell_voltage : Z;
  min_cell_voltage : Z;
  temperature_max : Q;
  temperature_min : Q;
  reserved : str;
  cell_count : Z;
  battery_count : Z
}.
End Header.

Module Battery.
Record t : Type := mk {
  number : Z;
  soc : Z;
  voltage : Q;
  cell_count : Z;
  cells : list Q;
  ambient_temperature : Q;
  pack_avg_temperature : Q;
  mos_temperature : Q;
  pack_temp_sensor_count : Z;
  pack_temperatures : list Q;
  current : Q;
  internal_resistance : Z;
  soh : Z;
  user_defined : Z;
  full_charge_capacity : Q;
  remaining_capacity : Q;
  cycle_count : Z;
  max_cell_voltage : Z;
  min_cell_voltage : Z;
  max_cell_temp : Q;
  min_cell_temp : Q;
  unknown_3 : Z;
  unknown_4 : Z;
  avg_cell_temp : Q;
  average_cell_voltage : Z;
  total_charge : Z;
  total_discharge : Z;
  voltage_status : Z;
  current_status : Z;
  temperature_status : Z;
  alarm_status : Z;
  fet_status : Z;
  overvoltage_protect : Z;
  undervoltage_protect : Z;
  overvoltage_alarm : Z;
  undervoltage_alarm : Z;
  balance_status : Z
}.
End Battery.

(** The dictionaries built by [_transform_group_data] and
    [_transform_battery_data]. *)

Module Group.
Record t : Type := mk {
  voltage : Q;
  current : Q;
  total_capacity : Z;
  remaining_capacity : Z;
  soc : Z;
  max_ambient_temp : Q;
  min_ambient_temp : Q;
  max_cell_voltage : Z;
  min_cell_voltage : Z;
  temperature_min : Q;
  temperature_max : Q;
  reserved : str;
  cell_count : Z;
  battery_count : Z
}.
End Group.

Module Status.
Record t : Type := mk { voltage : Z; current : Z; temperature : Z; alarm : Z; fet : Z }.
End Status.

Module Protection.
Record t : Type := mk {
  overvoltage_protect : Z;
  undervoltage_protect : Z;
  overvoltage_alarm : Z;
  undervoltage_alarm : Z;
  balance_status : Z
}.
End Protection.

Module Sensor.
Record t : Type := mk {
  number : Z;
  soc : Z;
  voltage : Q;
  cell_count : Z;
  cell_voltages : list Q;
  temp_count : Z;
  temperatures : list Q;
  ambient_temperature : Q;
  pack_avg_temperature : Q;
  mos_temperature : Q;
  current : Q;
  internal_resistance : Z;
  soh : Z;
  user_defined : Z;
  full_capacity : Q;
  remaining_capacity : Q;
  cycle_count : Z;
  max_cell_voltage : Z;
  min_cell_voltage : Z;
  average_cell_voltage : Z;
  total_charge : Z;
  total_discharge : Z;
  max_cell_temp : Q;
  min_cell_temp : Q;
  unknown_3 : Z;
  unknown_4 : Z;
  avg_cell_temp : Q;
  status : Status.t;
  protection : Protection.t
}.
End Sensor.

Inductive Key : Type :=
| KStr (s : string)
| KInt (n : Z).

#[global] Instance Key_eq_dec : EqDecision Key.
Proof. solve_decision. Defined.

#[global] Instance Key_countable : Countable Key.
Proof.
  refine (inj_countable'
            (λ k, match k with KStr s => inl s | KInt n => inr n end)
            (λ x, match x with inl s => KStr s | inr n => KInt n end) _).
  intros []; reflexivity.
Defined.

Inductive Entry : Type :=
| ERaw (h : Header.t)
| EGroup (g : Group.t)
| EBattery (b : Sensor.t).

Abbreviation Snapshot := (gmap Key Entry).

Record AntraDataCoordinator : Type := mkCoordinator {
  _battery_count : Z;
  _group_number : Z;
  data : Snapshot
}.

(** [__init__]: the configured battery count is capped at 12. *)
Definition __init__ (battery_count group_number : Z) : AntraDataCoordinator :=
  {| _battery_count := Z.min battery_count 12;
     _group_number := group_number;
     data := ∅ |}.

Definition set_data (self : AntraDataCoordinator) (d : Snapshot) : AntraDataCoordinator :=
  {| _battery_count := _battery_count self;
     _group_number := _group_number self;
     data := d |}.

Section Codec.
Variable self : AntraDataCoordinator.

Definition _calculate_address (battery_number : option Z) : Z :=
  match battery_number with
  | None => 0x0 + 0x10 * _group_number self
  | Some position => position + 0x10 * _group_number self
  end.

(** The checksum of a decoded body, as the three statements shared by
    [_build_command], [_verify_checksum] and [_verify_known_checksum]
    compute it. *)
Definition checksum_of (data_str : str) : Z :=
  let sum_val := sum_ord data_str in
  let remainder := sum_val mod 65536 in
  Z.lxor remainder 0xFFFF + 1.

Definition _build_command (command : bytes) (battery_number : option Z)
    (info_byte : option bytes) : result bytes :=
  let frame := [SOI] in
  let frame := frame ++ lit "22" in
  let address := _calculate_address battery_number in
  let frame := frame ++ format_X 2 address in
  let frame := frame ++ lit "4A" in
  let frame := frame ++ command in
  let info_byte :=
    match info_byte with
    | None =>
        match battery_number with
        | None => lit "FF"
        | Some _ => format_X 2 address
        end
    | Some b => b
    end in
  let info_byte := lit "FF" in
  let frame := frame ++ lit "E002" in
  let frame := frame ++ info_byte in
  data_to_sum ← decode_ascii (slice_a frame 1);
  let checksum := checksum_of data_to_sum in
  let frame := frame ++ format_X 4 checksum in
  let frame := frame ++ [EOI] in
  Ok frame.
End Codec.

(** [_verify_checksum]: any exception inside is caught and gives [False]. *)
Definition _verify_checksum (data : bytes) : bool :=
  let attempt : result bool :=
    hex_str ← decode_ascii (slice_ab data 1 (-1));
    let data_str := slice_b hex_str (-4) in
    msg_checksum ← int16 (slice_a hex_str (-4));
    let expected := checksum_of data_str in
    if negb (msg_checksum =? expected) then Ok false else Ok true in
  match attempt with
  | Ok b => b
  | Raise _ => false
  end.

Definition rtn_codes : list (str * string) :=
  [ (lit "00", "Normal"%string);
    (lit "01", "VER error"%string);
    (lit "02", "CHKSUM error"%string);
    (lit "03", "LCHKSUM error"%string);
    (lit "04", "CID2 invalidation"%string);
    (lit "05", "Command format error"%string);
    (lit "06", "Invalid data"%string);
    (lit "90", "ADR error"%string);
    (lit "91", "Communication error"%string) ].

Definition _validate_response (response : bytes) : bool :=
  let attempt : result bool :=
    hex_str ← decode_ascii (slice_ab response 1 (-1));
    let rtn := slice_ab hex_str 6 8 in
    if negb (bool_decide (rtn ∈ rtn_codes.*1)) then Ok false
    else if negb (bool_decide (rtn = lit "00")) then Ok false
    else Ok true in
  match attempt with
  | Ok b => b
  | Raise _ => false
  end.

Definition startswith (s p : bytes) : bool := bool_decide (take (length p) s = p).
Definition endswith (s p : bytes) : bool :=
  bool_decide (drop (length s - length p)%nat s = p) && (length p <=? length s)%nat.
Definition len {A} (s : list A) : Z := Z.of_nat (length s).

(** ** Transport read loop

    What [self._reader.readuntil] delivers while the timeout window is
    open: a frame, or an exception. When the list runs out the timeout
    fires. *)
Inductive read_event : Type :=
| Recv (response : bytes)
| ReadFails.

Fixpoint _read_response (evs : list read_event) : option bytes :=
  match evs with
  | [] => None
  | ReadFails :: _ => None
  | Recv response :: rest =>
      if negb (startswith response [SOI]) || negb (endswith response [EOI]) then
        _read_response rest
      else if negb (_verify_checksum response) then _read_response rest
      else if len response <? 30 then _read_response rest
      else if negb (_validate_response response) then _read_response rest
      else Some response
  end.

(** ** Field decoder *)

(** [a << n] raises [ValueError] on a negative shift count. *)
Definition py_lshift (a n : Z) : result Z :=
  if n <? 0 then Raise ValueError else Ok (Z.shiftl a n).

(** The least magnitude at which [float(a)] rounds to [2^1024]: halfway
    between the largest binary64 number, [2^1024 - 2^971], and [2^1024]. *)
Definition float_overflow : Z := 2 ^ 1024 - 2 ^ 970.

(** [a / scale] with [scale] the float that the signature declares. The
    integer is converted to a float first, which raises [OverflowError]
    from [float_overflow] on; then a zero scale raises
    [ZeroDivisionError]. The quotient is kept exact: it is the number
    that Python rounds to binary64 when [a] is at most [2^53] in
    magnitude, and on that range the integer scales that the parsers
    pass divide as the floats of the same value do. Beyond it the
    conversion of [a] rounds as well, which the quotient does not show;
    the properties of [convert_signed] stay within 13 digits for that
    reason. *)
Definition py_truediv (a : Z) (scale : Q) : result Q :=
  if float_overflow <=? Z.abs a then Raise OverflowError
  else if Qeq_bool scale 0 then Raise ZeroDivisionError
  else Ok (inject_Z a / scale)%Q.

Definition convert_signed (decoded : str) (pos length : Z) (scale : Q) : result Q :=
  raw ← int16 (slice_ab decoded pos (pos + length));
  let bits := length * 4 in
  sign_bit ← py_lshift 1 (bits - 1);
  raw ← (if sign_bit <=? raw then
           full ← py_lshift 1 bits; Ok (raw - full)
         else Ok raw);
  py_truediv raw scale.

(** [int(decoded[a:b], 16)] *)
Definition read_int (decoded : str) (a b : Z) : result Z := int16 (slice_ab decoded a b).

(** ** Header block parser *)

Definition _parse_header_block (decoded : str) (pos : Z) : result (Header.t * Z) :=
  v ← read_int decoded pos (pos + 4);
  let voltage := (inject_Z v / 100)%Q in
  current ← convert_signed decoded (pos + 4) 4 1;
  total_capacity ← read_int decoded (pos + 8) (pos + 12);
  remaining_capacity ← read_int decoded (pos + 12) (pos + 16);
  soc ← read_int decoded (pos + 16) (pos + 20);
  max_ambient_temp ← convert_signed decoded (pos + 20) 4 10;
  min_ambient_temp ← convert_signed decoded (pos + 24) 4 10;
  max_cell_voltage ← read_int decoded (pos + 28) (pos + 32);
  min_cell_voltage ← read_int decoded (pos + 32) (pos + 36);
  temperature_max ← convert_signed decoded (pos + 40) 4 10;
  temperature_min ← convert_signed decoded (pos + 44) 4 10;
  let reserved := slice_ab decoded (pos + 44) (pos + 62) in
  cell_count ← read_int decoded (pos + 62) (pos + 64);
  battery_count ← read_int decoded (pos + 64) (pos + 66);
  Ok ({| Header.voltage := voltage;
         Header.current := current;
         Header.total_capacity := total_capacity;
         Header.remaining_capacity := remaining_capacity;
         Header.soc := soc;
         Header.max_ambient_temp := max_ambient_temp;
         Header.min_ambient_temp := min_ambient_temp;
         Header.max_cell_voltage := max_cell_voltage;
         Header.min_cell_voltage := min_cell_voltage;
         Header.temperature_max := temperature_max;
         Header.temperature_min := temperature_min;
         Header.reserved := reserved;
         Header.cell_count := cell_count;
         Header.battery_count := battery_count |},
      pos + 66).

(** ** Battery block parser *)

(** [for i in range(cell_count)]: one 4-digit field per cell, [/ 1000]. *)
Fixpoint read_cells (decoded : str) (n : nat) (pos : Z) (cells : list Q)
  : result (list Q * Z) :=
  match n with
  | O => Ok (cells, pos)
  | S n' =>
      v ← read_int decoded pos (pos + 4);
      let cell_voltage := (inject_Z v / 1000)%Q in
      read_cells decoded n' (pos + 4) (cells ++ [cell_voltage])
  end.

(** [for i in range(temp_sensor_count)]: one signed 4-digit field per
    sensor, [/ 10]. *)
Fixpoint read_pack_temps (decoded : str) (n : nat) (pos : Z) (pack_temps : list Q)
  : result (list Q * Z) :=
  match n with
  | O => Ok (pack_temps, pos)
  | S n' =>
      pack_temp ← convert_signed decoded pos 4 10;
      read_pack_temps decoded n' (pos + 4) (pack_temps ++ [pack_temp])
  end.

Definition _parse_battery_block (decoded : str) (pos : Z) : result (Battery.t * Z) :=
  let start_pos := pos in
  number ← read_int decoded pos (pos + 2);
  let pos := pos + 4 in
  soc ← read_int decoded pos (pos + 2);
  let pos := pos + 2 in
  v ← read_int decoded pos (pos + 4);
  let voltage := (inject_Z v / 100)%Q in
  let pos := pos + 4 in
  cell_count ← read_int decoded pos (pos + 2);
  let pos := pos + 2 in
  '(cells, pos) ← read_cells decoded (Z.to_nat cell_count) pos [];
  ambient_temperature ← convert_signed decoded pos 4 10;
  let pos := pos + 4 in
  pack_avg_temperature ← convert_signed decoded pos 4 10;
  let pos := pos + 4 in
  mos_temperature ← convert_signed decoded pos 4 10;
  let pos := pos + 4 in
  temp_sensor_count ← read_int decoded pos (pos + 2);
  let pos := pos + 2 in
  '(pack_temps, pos) ← read_pack_temps decoded (Z.to_nat temp_sensor_count) pos [];
  current ← convert_signed decoded pos 4 100;
  let pos := pos + 4 in
  internal_resistance ← read_int decoded pos (pos + 4);
  let pos := pos + 4 in
  soh ← read_int decoded pos (pos + 4);
  let pos := pos + 4 in
  user_defined ← read_int decoded pos (pos + 2);
  let pos := pos + 2 in
  v ← read_int decoded pos (pos + 4);
  let full_charge_capacity := (inject_Z v / 100)%Q in
  let pos := pos + 4 in
  v ← read_int decoded pos (pos + 4);
  let remaining_capacity := (inject_Z v / 100)%Q in
  let pos := pos + 4 in
  cycle_count ← read_int decoded pos (pos + 4);
  let pos := pos + 4 in
  max_cell_voltage ← read_int decoded pos (pos + 4);
  let pos := pos + 4 in
  min_cell_voltage ← read_int decoded pos (pos + 4);
  let pos := pos + 4 in
  max_cell_temp ← convert_signed decoded pos 4 10;
  let pos := pos + 4 in
  min_cell_temp ← convert_signed decoded pos 4 10;
  let pos := pos + 4 in
  unknown_3 ← read_int decoded pos (pos + 4);
  let pos := pos + 4 in
  unknown_4 ← read_int decoded pos (pos + 4);
  let pos := pos + 4 in
  avg_cell_temp ← convert_signed decoded pos 4 10;
  let pos := pos + 4 in
  average_cell_voltage ← read_int decoded pos (pos + 4);
  let pos := pos + 4 in
  total_charge ← read_int decoded pos (pos + 4);
  let pos := pos + 4 in
  total_discharge ← read_int decoded pos (pos + 4);
  let pos := pos + 4 in
  voltage_status ← read_int decoded pos (pos + 4);
  let pos := pos + 4 in
  current_status ← read_int decoded pos (pos + 4);
  let pos := pos + 4 in
  temperature_status ← read_int decoded pos (pos + 4);
  let pos := pos + 4 in
  alarm_status ← read_int decoded pos (pos + 4);
  let pos := pos + 4 in
  fet_status ← read_int decoded pos (pos + 4);
  let pos := pos + 4 in
  overvoltage_protect ← read_int decoded pos (pos + 4);
  let pos := pos + 4 in
  undervoltage_protect ← read_int decoded pos (pos + 4);
  let pos := pos + 4 in
  overvoltage_alarm ← read_int decoded pos (pos + 4);
  let pos := pos + 4 in
  undervoltage_alarm ← read_int decoded pos (pos + 4);
  let pos := pos + 4 in
  balance_status ← read_int decoded pos (pos + 4);
  let pos := pos + 4 in
  Ok ({| Battery.number := number;
         Battery.soc := soc;
         Battery.voltage := voltage;
         Battery.cell_count := cell_count;
         Battery.cells := cells;
         Battery.ambient_temperature := ambient_temperature;
         Battery.pack_avg_temperature := pack_avg_temperature;
         Battery.mos_temperature := mos_temperature;
         Battery.pack_temp_sensor_count := temp_sensor_count;
         Battery.pack_temperatures := pack_temps;
         Battery.current := current;
         Battery.internal_resistance := internal_resistance;
         Battery.soh := soh;
         Battery.user_defined := user_defined;
         Battery.full_charge_capacity := full_charge_capacity;
         Battery.remaining_capacity := remaining_capacity;
         Battery.cycle_count := cycle_count;
         Battery.max_cell_voltage := max_cell_voltage;
         Battery.min_cell_voltage := min_cell_voltage;
         Battery.max_cell_temp := max_cell_temp;
         Battery.min_cell_temp := min_cell_temp;
         Battery.unknown_3 := unknown_3;
         Battery.unknown_4 := unknown_4;
         Battery.avg_cell_temp := avg_cell_temp;
         Battery.average_cell_voltage := average_cell_voltage;
         Battery.total_charge := total_charge;
         Battery.total_discharge := total_discharge;
         Battery.voltage_status := voltage_status;
         Battery.current_status := current_status;
         Battery.temperature_status := temperature_status;
         Battery.alarm_status := alarm_status;
         Battery.fet_status := fet_status;
         Battery.overvoltage_protect := overvoltage_protect;
         Battery.undervoltage_protect := undervoltage_protect;
         Battery.overvoltage_alarm := overvoltage_alarm;
         Battery.undervoltage_alarm := undervoltage_alarm;
         Battery.balance_status := balance_status |},
      pos).

(** ** Snapshot assembler *)

Definition _transform_group_data (header_data : Header.t) : Group.t :=
  {| Group.voltage := Header.voltage header_data;
     Group.current := Header.current header_data;
     Group.total_capacity := Header.total_capacity header_data;
     Group.remaining_capacity := Header.remaining_capacity header_data;
     Group.soc := Header.soc header_data;
     Group.max_ambient_temp := Header.max_ambient_temp header_data;
     Group.min_ambient_temp := Header.min_ambient_temp header_data;
     Group.max_cell_voltage := Header.max_cell_voltage header_data;
     Group.min_cell_voltage := Header.min_cell_voltage header_data;
     Group.temperature_min := Header.temperature_min header_data;
     Group.temperature_max := Header.temperature_max header_data;
     Group.reserved := Header.reserved header_data;
     Group.cell_count := Header.cell_count header_data;
     Group.battery_count := Header.battery_count header_data |}.

(** [battery_num] is only a parameter of the source function: the number
    stored is the parsed one plus 1. *)
Definition _transform_battery_data (battery_data : Battery.t) (battery_num : Z) : Sensor.t :=
  let parsed_battery_num := Battery.number battery_data in
  let adjusted_battery_num := parsed_battery_num + 1 in
  {| Sensor.number := adjusted_battery_num;
     Sensor.soc := Battery.soc battery_data;
     Sensor.voltage := Battery.voltage battery_data;
     Sensor.cell_count := len (Battery.cells battery_data);
     Sensor.cell_voltages := Battery.cells battery_data;
     Sensor.temp_count := Battery.pack_temp_sensor_count battery_data;
     Sensor.temperatures := Battery.pack_temperatures battery_data;
     Sensor.ambient_temperature := Battery.ambient_temperature battery_data;
     Sensor.pack_avg_temperature := Battery.pack_avg_temperature battery_data;
     Sensor.mos_temperature := Battery.mos_temperature battery_data;
     Sensor.current := Battery.current battery_data;
     Sensor.internal_resistance := Battery.internal_resistance battery_data;
     Sensor.soh := Battery.soh battery_data;
     Sensor.user_defined := Battery.user_defined battery_data;
     Sensor.full_capacity := Battery.full_charge_capacity battery_data;
     Sensor.remaining_capacity := Battery.remaining_capacity battery_data;
     Sensor.cycle_count := Battery.cycle_count battery_data;
     Sensor.max_cell_voltage := Battery.max_cell_voltage battery_data;
     Sensor.min_cell_voltage := Battery.min_cell_voltage battery_data;
     Sensor.average_cell_voltage := Battery.average_cell_voltage battery_data;
     Sensor.total_charge := Battery.total_charge battery_data;
     Sensor.total_discharge := Battery.total_discharge battery_data;
     Sensor.max_cell_temp := Battery.max_cell_temp battery_data;
     Sensor.min_cell_temp := Battery.min_cell_temp battery_data;
     Sensor.unknown_3 := Battery.unknown_3 battery_data;
     Sensor.unknown_4 := Battery.unknown_4 battery_data;
     Sensor.avg_cell_temp := Battery.avg_cell_temp battery_data;
     Sensor.status :=
       {| Status.voltage := Battery.voltage_status battery_data;
          Status.current := Battery.current_status battery_data;
          Status.temperature := Battery.temperature_status battery_data;
          Status.alarm := Battery.alarm_status battery_data;
          Status.fet := Battery.fet_status battery_data |};
     Sensor.protection :=
       {| Protection.overvoltage_protect := Battery.overvoltage_protect battery_data;
          Protection.undervoltage_protect := Battery.undervoltage_protect battery_data;
          Protection.overvoltage_alarm := Battery.overvoltage_alarm battery_data;
          Protection.undervoltage_alarm := Battery.undervoltage_alarm battery_data;
          Protection.balance_status := Battery.balance_status battery_data |} |}.

(** The serial line during one command: whether the write and drain go
    through, and what the reader then delivers before the timeout. *)
Record Line : Type := mkLine {
  write_ok : bool;
  incoming : list read_event
}.

(** [_send_command]: [_build_command] runs before the [try]; a failing
    write gives [None]; an empty response is falsy and gives [None]. *)
Definition _send_command (self : AntraDataCoordinator) (command : bytes)
    (battery_number : option Z) (line : Line) : result (option bytes) :=
  cmd_packet ← _build_command self command battery_number None;
  if write_ok line then
    match _read_response (incoming line) with
    | Some response => if bool_decide (response = []) then Ok None else Ok (Some response)
    | None => Ok None
    end
  else Ok None.

(** The result of one poll cycle: the coordinator afterwards, the
    dictionary returned, and the offsets at which [_parse_battery_block]
    was called, in call order (the function logs each of them on entry:
    "Starting battery block parse at pos"). *)
Record Cycle : Type := mkCycle {
  coordinator : AntraDataCoordinator;
  returned : Snapshot;
  parse_calls : list Z
}.

(** [for i in range(battery_count)] with the per-battery [try]: a block
    that raises leaves [pos] and the dictionary as they were. *)
Fixpoint battery_loop (decoded : str) (n : nat) (i : Z) (pos : Z)
    (d : Snapshot) (calls : list Z) : Snapshot * list Z :=
  match n with
  | O => (d, calls)
  | S n' =>
      let calls := calls ++ [pos] in
      match _parse_battery_block decoded pos with
      | Ok (battery_data, pos') =>
          battery_loop decoded n' (i + 1) pos'
            (<[KInt (i + 1) := EBattery (_transform_battery_data battery_data (i + 1))]> d)
            calls
      | Raise _ => battery_loop decoded n' (i + 1) pos d calls
      end
  end.

Definition _async_update_data (self : AntraDataCoordinator) (line : Line) : Cycle :=
  match _send_command self (lit "42") None line with
  | Raise _ => mkCycle self (data self) []
  | Ok None => mkCycle self (data self) []
  | Ok (Some response) =>
      let decoded := decode_ascii_ignore (slice_ab response 1 (-1)) in
      let self := set_data self ∅ in
      match _parse_header_block decoded 12 with
      | Raise _ => mkCycle self (data self) []
      | Ok (header_data, pos) =>
          let d := <[KStr "raw_system" := ERaw header_data]> (data self) in
          let d := <[KStr "group" := EGroup (_transform_group_data header_data)]> d in
          let battery_count := Header.battery_count header_data in
          let '(d, calls) := battery_loop decoded (Z.to_nat battery_count) 0 pos d [] in
          mkCycle (set_data self d) d calls
      end
  end.

(** * Specification-level notions

    Used to state the properties; none of them is called by the code. *)

Definition hexdigit (c : ascii) : bool :=
  match digit_value c with Some _ => true | None => false end.

Definition digit_of (c : ascii) : Z := default 0 (digit_value c).

(** The unsigned value of a digit string, most significant digit first. *)
Definition hex_value_from (acc : Z) (s : str) : Z :=
  fold_left (λ a c, a * 16 + digit_of c) s acc.

Definition hex_value (s : str) : Z := hex_value_from 0 s.


(** A response body of 940 hexadecimal characters whose ASCII codes sum
    to exactly 65536, and the frame a peer sends for it when the checksum
    is a 16-bit quantity. *)
Definition wrap_body : str :=
  lit "22004A00E002" ++ replicate 925 "F"%char ++ lit "666".

Definition wrap_frame : bytes := [SOI] ++ wrap_body ++ lit "0000" ++ [EOI].

(** Two's-complement reading of an unsigned [d]-digit value. *)
Definition signed_fold (d v : Z) : Z :=
  if 2 ^ (4 * d - 1) <=? v then v - 2 ^ (4 * d) else v.

(** The [w] characters from offset [p] exist and are hexadecimal digits. *)
Definition hex_window (decoded : str) (p w : Z) : Prop :=
  0 ≤ p ∧ p + w ≤ len decoded ∧ forallb hexdigit (slice_ab decoded p (p + w)) = true.

(** The unsigned and the signed scaled reading of the four digits at
    offset [a]. *)
Definition unsigned_at (decoded : str) (a : Z) (scale : Q) : Q :=
  (inject_Z (hex_value (slice_ab decoded a (a + 4))) / scale)%Q.

Definition signed_at (decoded : str) (a : Z) (scale : Q) : Q :=
  (inject_Z (signed_fold 4 (hex_value (slice_ab decoded a (a + 4)))) / scale)%Q.

(** The header window of the documented example: 15A5 = 55.41 V, 0000 = 0 A,
    01A4 = 420 Ah twice, 0064 = 100 %, 00A0, 0096, 0E2A, 0D1A, 0082 (digits
    36-39), 0050 (digits 40-43), eighteen reserved zeros, 10 = 16 cells,
    04 = 4 batteries. *)
Definition doc_header : str :=
  lit "15A5" ++ lit "0000" ++ lit "01A4" ++ lit "01A4" ++ lit "0064"
    ++ lit "00A0" ++ lit "0096" ++ lit "0E2A" ++ lit "0D1A"
    ++ lit "0082" ++ lit "0050" ++ lit "000000000000000000" ++ lit "10" ++ lit "04".

(** The twelve characters before the header: VER, ADR, CID1, RTN, LENGTH. *)
Definition response_prefix : str := lit "22004A00D04E".

(** A battery block of the nominal 212 digits: number 00, SOC 100, 53.00 V,
    sixteen cells of 3312 mV, three temperatures, four sensor readings,
    current -0.10 A, and the remaining fields. *)
Definition sample_block : str :=
  lit "0000" ++ lit "64" ++ lit "14B4" ++ lit "10"
    ++ lit "0CF00CF00CF00CF00CF00CF00CF00CF00CF00CF00CF00CF00CF00CF00CF00CF0"
    ++ lit "00C8" ++ lit "00D2" ++ lit "00DC" ++ lit "04"
    ++ lit "00C800C900CA00CB"
    ++ lit "FFF6" ++ lit "0000" ++ lit "0064" ++ lit "00"
    ++ lit "2710" ++ lit "2710" ++ lit "0005"
    ++ lit "0CF0" ++ lit "0CF0" ++ lit "00C8" ++ lit "00C8" ++ lit "0000"
    ++ lit "0000" ++ lit "00C8" ++ lit "0CF0" ++ lit "0000" ++ lit "0000"
    ++ lit "00000000000000000000"
    ++ lit "00000000000000000000".

(** The four gates of the read loop, stated on the frame itself. The
    return code is the CID2 position: the two characters after SOI, VER,
    ADR and CID1. *)
Definition framed (f : bytes) : bool := startswith f [SOI] && endswith f [EOI].

Definition return_code (f : bytes) : bytes := slice_ab f 7 9.

Definition min_response_length : Z := 30.

Definition passes_gates (f : bytes) : bool :=
  framed f && _verify_checksum f && (min_response_length <=? len f)
    && bool_decide (return_code f = lit "00").

(** A candidate the loop drops: a frame that fails a gate. *)
Definition dropped (e : read_event) : Prop :=
  ∃ g, e = Recv g ∧ passes_gates g = false.

(** ** Poll cycles *)

(** The decoded text the parsers work on. *)
Definition decoded_of (response : bytes) : str :=
  decode_ascii_ignore (slice_ab response 1 (-1)).

(** What the analog query obtains from the line: nothing when the write
    fails or the read loop gives up, else the validated frame. *)
Definition analog_response (line : Line) : option bytes :=
  if write_ok line then _read_response (incoming line) else None.

(** Total failure of a cycle: no response, or a header parse that raises. *)
Inductive failure : Type :=
| NoResponse
| HeaderStage.

Definition total_failure (line : Line) : option failure :=
  match analog_response line with
  | None => Some NoResponse
  | Some response =>
      if is_ok (_parse_header_block (decoded_of response) 12) then None
      else Some HeaderStage
  end.

(** The frame a peer sends for a body, with a 16-bit checksum. *)
Definition bms_frame (body : str) : bytes :=
  [SOI] ++ body ++ format_X 4 (checksum_of body mod 65536) ++ [EOI].

Definition line_of (response : bytes) : Line :=
  {| write_ok := true; incoming := [Recv response] |}.

(** The documented header with another battery count in its last byte. *)
Definition header_for (count : string) : str := take 64 doc_header ++ lit count.

(** Two well-formed batteries. *)
Definition response_two : bytes :=
  bms_frame (response_prefix ++ header_for "02" ++ sample_block ++ sample_block).

(** A frame cut after 40 header digits: it passes the four gates, and its
    header cannot be parsed. *)
Definition response_truncated : bytes :=
  bms_frame (response_prefix ++ take 40 doc_header).

(** Two batteries announced; the first block starts with two characters
    that are not hexadecimal digits, the second block is well formed. *)
Definition bad_block : str := lit "XX" ++ drop 2 sample_block.

Definition response_bad_first : bytes :=
  bms_frame (response_prefix ++ header_for "02" ++ bad_block ++ sample_block).

(** Thirteen batteries announced and present. *)
Definition response_thirteen : bytes :=
  bms_frame (response_prefix ++ header_for "0D" ++ concat (replicate 13 sample_block)).

(** The coordinator after a first, successful poll of two batteries. *)
Definition after_first_poll : AntraDataCoordinator :=
  coordinator (_async_update_data (__init__ 4 0) (line_of response_two)).

(** * Other functions of the coordinator *)

(** [_get_battery_address]: the ADR field of a frame as a number, [None]
    when anything inside raises. *)
Definition _get_battery_address (response : bytes) : option Z :=
  let attempt : result Z :=
    hex_str ← decode_ascii (slice_ab response 1 (-1));
    int16 (slice_ab hex_str 2 4) in
  match attempt with
  | Ok address => Some address
  | Raise _ => None
  end.

(** [_is_42h_response] *)
Definition _is_42h_response (response : bytes) : bool :=
  let attempt : result bool :=
    hex_str ← decode_ascii (slice_ab response 1 (-1));
    Ok ((6 <? len hex_str) && bool_decide (slice_ab hex_str 4 6 = lit "42")) in
  match attempt with
  | Ok b => b
  | Raise _ => false
  end.

(** [dict.get(key, default)] on a dictionary written as its items. *)
Fixpoint dict_get {K V} `{EqDecision K} (d : list (K * V)) (key : K) : option V :=
  match d with
  | [] => None
  | (k, v) :: rest => if bool_decide (k = key) then Some v else dict_get rest key
  end.

(** [_get_rtn_description]: the table is the one [_validate_response]
    carries. *)
Definition _get_rtn_description (rtn : str) : string :=
  default "Unknown RTN code"%string (dict_get rtn_codes rtn).

(** A battery block of the nominal layout at offset [p]: 212 hexadecimal
    digits, cell count 16, sensor count 4. *)
Definition nominal_block (decoded : str) (p : Z) : Prop :=
  hex_window decoded p 212
  ∧ read_int decoded (p + 10) (p + 12) = Ok 16
  ∧ read_int decoded (p + 88) (p + 90) = Ok 4.

(** [bytes.hex()]: two lower-case hexadecimal digits per byte. *)
Definition hex_char_lower (d : Z) : ascii :=
  nth (Z.to_nat d) (lit "0123456789abcdef") "0"%char.

Definition bytes_hex (data : bytes) : str :=
  concat (map (λ c, [hex_char_lower (ord c / 16); hex_char_lower (ord c mod 16)]) data).

(** [range(0, n, 2)] for a length [n] *)
Definition range2 (n : Z) : list Z :=
  map (λ k, 2 * Z.of_nat k) (seq 0 (Z.to_nat ((n + 1) / 2))).

(** A list comprehension whose element expression may raise: the first
    exception ends it. *)
Fixpoint traverse {A B} (f : A → result B) (l : list A) : result (list B) :=
  match l with
  | [] => Ok []
  | x :: rest => y ← f x; ys ← traverse f rest; Ok (y :: ys)
  end.

(** [_format_message]: the frame as text for the log, bytes re-read pair
    by pair; an error text when anything raises. *)
Definition _format_message (data : bytes) : str :=
  let attempt : result str :=
    hex_str ← decode_ascii (slice_ab data 1 (-1));
    formatted ← traverse (λ i, int16 (slice_ab hex_str i (i + 2)))
                  (range2 (len hex_str));
    Ok ("~"%char :: concat (map (format_X 2) formatted)) in
  match attempt with
  | Ok s => s
  | Raise _ => lit "~ERROR(" ++ bytes_hex data ++ lit ")"
  end.

(** An upper-case hexadecimal digit, as the protocol writes them. *)
Definition upper_hexdigit (c : ascii) : bool :=
  let n := ord c in ((48 <=? n) && (n <=? 57)) || ((65 <=? n) && (n <=? 70)).

(** [str.strip()]: the characters [str.isspace] accepts are removed at
    both ends. *)
Definition py_isspace (c : ascii) : bool :=
  let n := ord c in
  ((9 <=? n) && (n <=? 13)) || ((28 <=? n) && (n <=? 31)) || (n =? 32).

Fixpoint lstrip (s : str) : str :=
  match s with
  | c :: r => if py_isspace c then lstrip r else s
  | [] => []
  end.

Definition py_strip (s : str) : str := rev (lstrip (rev (lstrip s))).

(** The coordinator together with its [protocol_version] attribute. *)
Record Versioned : Type := mkVersioned {
  engine : AntraDataCoordinator;
  protocol_version : option str
}.

(** [async_get_protocol_version]: the query goes to battery number 0;
    no response raises [ValueError]; every exception is raised again. *)
Definition async_get_protocol_version (self : Versioned) (line : Line)
  : Versioned * result str :=
  match _send_command (engine self) (lit "4F") (Some 0) line with
  | Raise e => (self, Raise e)
  | Ok None => (self, Raise ValueError)
  | Ok (Some response) =>
      let decoded := py_strip (slice_a (decode_ascii_ignore response) 1) in
      let version := slice_ab decoded 0 2 in
      (mkVersioned (engine self) (Some version), Ok version)
  end.

(** * Sensor platform: the decoders of [sensor.py] *)




(** [sep.join(items)] *)
Fixpoint join (sep : str) (items : list str) : str :=
  match items with
  | [] => []
  | [x] => x
  | x :: rest => x ++ sep ++ join sep rest
  end.

(** Truth value of an integer used as a condition. *)
Definition truthy (n : Z) : bool := negb (n =? 0).



(** [decode_status_bitmask]: [mapping] is the dictionary as its items, in
    insertion order; a negative bit position makes [1 << bit] raise. *)
Fixpoint status_labels (bitmask : Z) (items : list (Z * str)) : result (list str) :=
  match items with
  | [] => Ok []
  | (bit, label) :: rest =>
      mask ← py_lshift 1 bit;
      labels ← status_labels bitmask rest;
      Ok (if truthy (Z.land bitmask mask) then label :: labels else labels)
  end.

Definition decode_status_bitmask (bitmask : Z) (mapping : list (Z * str)) : result str :=
  statuses ← status_labels bitmask mapping;
  Ok (join (lit ", ") statuses).

Definition voltage_status_mapping : list (Z * str) :=
  [ (0, lit "Cell Overvoltage Protection");
    (1, lit "Cell Undervoltage Protection");
    (2, lit "Pack Overvoltage Protection");
    (3, lit "Pack Undervoltage Protection");
    (4, lit "Cell Overvoltage Alarm");
    (5, lit "Cell Undervoltage Alarm");
    (6, lit "Pack Overvoltage Alarm");
    (7, lit "Pack Undervoltage Alarm");
    (8, lit "Cell Voltage Difference Alarm");
    (15, lit "System Sleep") ].

Definition current_status_mapping : list (Z * str) :=
  [ (0, lit "Charging");
    (1, lit "Discharging");
    (2, lit "Charge Overcurrent Protection");
    (3, lit "Short Circuit Protection");
    (4, lit "Discharge Overcurrent 1 Protection");
    (5, lit "Discharge Overcurrent 2 Protection");
    (6, lit "Charge Overcurrent Alarm");
    (7, lit "Discharge Overcurrent Alarm") ].

(** [decode_fet_status]: [None] stands for the [KeyError] of the
    dictionary subscript. *)
Definition current_limiting_mapping : list (Z * str) :=
  [ (0, lit "No current limit");
    (1, lit "Current limit 5A");
    (2, lit "Current limit 10A");
    (3, lit "Current limit 25A") ].

Definition decode_fet_status (bitmask : Z) : option str :=
  let statuses := [] in
  let statuses :=
    if truthy (Z.land bitmask (Z.shiftl 1 0)) then statuses ++ [lit "Charge MOS: On"]
    else statuses ++ [lit "Charge MOS: Off"] in
  let statuses :=
    if truthy (Z.land bitmask (Z.shiftl 1 1)) then statuses ++ [lit "Disharge MOS: On"]
    else statuses ++ [lit "Disharge MOS: Off"] in
  let statuses :=
    if truthy (Z.land bitmask (Z.shiftl 1 2)) then statuses ++ [lit "Discharge MOS Failure"]
    else statuses in
  let statuses :=
    if truthy (Z.land bitmask (Z.shiftl 1 3)) then statuses ++ [lit "Charge MOS Failure"]
    else statuses in
  let current_limiting := Z.land (Z.shiftr bitmask 4) 3 in
  match dict_get current_limiting_mapping current_limiting with
  | None => None
  | Some label =>
      let statuses := statuses ++ [label] in
      let statuses :=
        if truthy (Z.land bitmask (Z.shiftl 1 11)) then statuses ++ [lit "LED alarm enabled"]
        else statuses in
      let statuses :=
        if truthy (Z.land bitmask (Z.shiftl 1 12)) then statuses ++ [lit "Beep enabled"]
        else statuses in
      Some (join (lit ", ") statuses)
  end.

(** [AntraBaseSensor.available], as a truth value: the last update
    succeeded, the snapshot is not empty and holds the battery number. *)
Definition available (last_update_success : bool) (coordinator_data : Snapshot)
    (battery_num : Z) : bool :=
  last_update_success
    && negb (bool_decide (coordinator_data = ∅))
    && bool_decide (is_Some (coordinator_data !! KInt battery_num)).

(** [entry.get("cell_voltages", [])]: only a battery record has the key. *)
Definition get_cell_voltages (e : Entry) : list Q :=
  match e with
  | EBattery b => Sensor.cell_voltages b
  | ERaw _ | EGroup _ => []
  end.

(** [AntraCellVoltageSensor.native_value]; [cell_num] is 0-based. *)
Definition cell_voltage_native_value (last_update_success : bool)
    (coordinator_data : Snapshot) (battery_num cell_num : Z) : option Q :=
  if available last_update_success coordinator_data battery_num then
    match coordinator_data !! KInt battery_num with
    | Some e =>
        let cell_voltages := get_cell_voltages e in
        if (0 <=? cell_num) && (cell_num <? len cell_voltages) then
          cell_voltages !! Z.to_nat cell_num
        else None
    | None => None
    end
  else None.
(** * Properties *)

(** ** Hexadecimal strings *)

(** Case analysis on every integer comparison in the goal. *)
Ltac zcases :=
  cbv zeta;
  repeat match goal with
         | |- context [?a <=? ?b] => destruct (Z.leb_spec a b)
         | |- context [?a <? ?b] => destruct (Z.ltb_spec a b)
         | |- context [?a =? ?b] => destruct (Z.eqb_spec a b)
         end;
  simpl; try done; try lia.

Lemma digit_value_range c d : digit_value c = Some d → 0 ≤ d < 16.
Proof.
  unfold digit_value. zcases; intros; simplify_eq; lia.
Qed.

Lemma hexdigit_ord c :
  hexdigit c = true →
  48 ≤ ord c ≤ 57 ∨ 65 ≤ ord c ≤ 70 ∨ 97 ≤ ord c ≤ 102.
Proof.
  unfold hexdigit, digit_value. zcases.
Qed.

Lemma hexdigit_not_space c : hexdigit c = true → is_space c = false.
Proof. intros H%hexdigit_ord. unfold is_space. zcases. Qed.

Lemma hexdigit_not_underscore c : hexdigit c = true → is_underscore c = false.
Proof. intros H%hexdigit_ord. unfold is_underscore. zcases. Qed.

Lemma hexdigit_ascii c : hexdigit c = true → is_ascii c = true.
Proof. intros H%hexdigit_ord. unfold is_ascii. zcases. Qed.

Lemma hexdigit_digit_value c : hexdigit c = true → digit_value c = Some (digit_of c).
Proof. unfold hexdigit, digit_of. destruct (digit_value c); [done | discriminate]. Qed.

Lemma digit_of_range c : 0 ≤ digit_of c < 16.
Proof.
  unfold digit_of. destruct (digit_value c) eqn:E; simpl; [| lia].
  by eapply digit_value_range.
Qed.

Lemma forallb_Forall {A} (f : A → bool) (l : list A) :
  forallb f l = true ↔ Forall (λ x, f x = true) l.
Proof. rewrite forallb_forall, Forall_forall. by setoid_rewrite list_elem_of_In. Qed.

Lemma scan_digits_hex s prev_us acc nd :
  forallb hexdigit s = true →
  (s = [] → prev_us = false) →
  scan_digits s prev_us acc nd = Some (hex_value_from acc s, (nd + length s)%nat, []).
Proof.
  revert prev_us acc nd. induction s as [| c r IH]; intros prev_us acc nd Hs Hp.
  - simpl. rewrite Hp by done. by rewrite Nat.add_0_r.
  - simpl in Hs. apply andb_true_iff in Hs as [Hc Hr]. simpl.
    rewrite (hexdigit_not_underscore c Hc), (hexdigit_digit_value c Hc).
    rewrite IH by done. do 3 f_equal. lia.
Qed.

(** [int(s, 16)] on a non-empty string of hexadecimal digits is its
    unsigned value. *)
Lemma int16_hex s :
  forallb hexdigit s = true → s ≠ [] → int16 s = Ok (hex_value s).
Proof.
  intros Hs Hne. destruct s as [| c r]; [done |].
  pose proof Hs as Hall. simpl in Hs. apply andb_true_iff in Hs as [Hc Hr].
  pose proof (hexdigit_ord c Hc) as Hord.
  unfold int16. simpl skip_spaces. rewrite (hexdigit_not_space c Hc).
  assert (strip_sign (c :: r) = (1, c :: r)) as ->.
  { simpl. zcases. }
  assert (strip_prefix (c :: r) = c :: r) as ->.
  { destruct r as [| x r']; [done |]. simpl in Hr.
    apply andb_true_iff in Hr as [Hx%hexdigit_ord _]. simpl.
    zcases. }
  rewrite (hexdigit_not_underscore c Hc).
  rewrite scan_digits_hex by done. simpl.
  f_equal. unfold hex_value. simpl. lia.
Qed.

Lemma hex_value_from_app acc s t :
  hex_value_from acc (s ++ t) = hex_value_from (hex_value_from acc s) t.
Proof. unfold hex_value_from. by rewrite fold_left_app. Qed.

Lemma hex_value_from_bounds s acc :
  0 ≤ acc →
  acc * 16 ^ len s ≤ hex_value_from acc s < (acc + 1) * 16 ^ len s.
Proof.
  revert acc. induction s as [| c r IH]; intros acc Hacc.
  - unfold len. simpl. lia.
  - pose proof (digit_of_range c) as Hd.
    specialize (IH (acc * 16 + digit_of c) ltac:(lia)).
    unfold len in *. simpl length. rewrite Nat2Z.inj_succ, Z.pow_succ_r by lia.
    change (hex_value_from acc (c :: r)) with (hex_value_from (acc * 16 + digit_of c) r).
    nia.
Qed.

(** A field of [d] digits holds an unsigned value below [2^(4d)]. *)
Lemma hex_value_bounds s : 0 ≤ hex_value s < 16 ^ len s.
Proof. pose proof (hex_value_from_bounds s 0). unfold hex_value. lia. Qed.

(** ** Slices inside the string *)

Lemma slice_ab_inside {A} (s : list A) (a b : Z) :
  0 ≤ a → a ≤ b → b ≤ len s →
  slice_ab s a b = take (Z.to_nat (b - a)) (drop (Z.to_nat a) s).
Proof.
  intros. unfold slice_ab, slice, clamp_index, len in *.
  destruct (Z.ltb_spec a 0), (Z.ltb_spec b 0); try lia.
  by rewrite !Z.min_l by lia.
Qed.

Lemma slice_ab_length {A} (s : list A) (a b : Z) :
  0 ≤ a → a ≤ b → b ≤ len s → len (slice_ab s a b) = b - a.
Proof.
  intros. rewrite slice_ab_inside by done. unfold len in *.
  rewrite length_take, length_drop. lia.
Qed.

(** A slice of a slice, both inside the string. *)
Lemma slice_ab_sub {A} (s : list A) (p q a b : Z) :
  0 ≤ p → p ≤ a → a ≤ b → b ≤ q → q ≤ len s →
  slice_ab s a b = slice_ab (slice_ab s p q) (a - p) (b - p).
Proof.
  intros. assert (len (slice_ab s p q) = q - p) as Hl by (apply slice_ab_length; lia).
  rewrite (slice_ab_inside (slice_ab s p q)) by lia.
  rewrite !slice_ab_inside by lia.
  rewrite !take_drop_commute, drop_drop, !take_take.
  replace (Z.to_nat p + Z.to_nat (a - p))%nat with (Z.to_nat a) by lia.
  do 2 f_equal. lia.
Qed.

Lemma slice_a_cons {A} (c : A) (s : list A) : slice_a (c :: s) 1 = s.
Proof.
  unfold slice_a, slice, clamp_index. simpl length.
  replace (Z.min 1 (Z.of_nat (S (length s)))) with 1 by lia.
  simpl. rewrite drop_0. apply take_ge. lia.
Qed.

(** [frame[1:-1]] strips the first and the last byte. *)
Lemma slice_ab_strip {A} (c e : A) (s : list A) : slice_ab (c :: s ++ [e]) 1 (-1) = s.
Proof.
  unfold slice_ab, slice, clamp_index. simpl length. rewrite length_app. simpl length.
  replace (Z.min 1 (Z.of_nat (S (length s + 1)))) with 1 by lia.
  replace (Z.max (-1 + Z.of_nat (S (length s + 1))) 0) with (Z.of_nat (length s) + 1) by lia.
  simpl. rewrite drop_0.
  replace (Z.to_nat (Z.of_nat (length s) + 1 - 1)) with (length s) by lia.
  apply take_app_length.
Qed.

Lemma slice_b_app4 {A} (s t : list A) : length t = 4%nat → slice_b (s ++ t) (-4) = s.
Proof.
  intros Ht. unfold slice_b, slice, clamp_index. rewrite length_app, Ht.
  change (-4 <? 0) with true. cbv iota.
  replace (Z.max (-4 + Z.of_nat (length s + 4)) 0) with (Z.of_nat (length s)) by lia.
  replace (Z.to_nat (Z.of_nat (length s) - 0)) with (length s) by lia.
  change (Z.to_nat 0) with 0%nat. rewrite drop_0. apply take_app_length.
Qed.

Lemma slice_a_app4 {A} (s t : list A) : length t = 4%nat → slice_a (s ++ t) (-4) = t.
Proof.
  intros Ht. unfold slice_a, slice, clamp_index. rewrite length_app, Ht.
  change (-4 <? 0) with true. cbv iota.
  replace (Z.max (-4 + Z.of_nat (length s + 4)) 0) with (Z.of_nat (length s)) by lia.
  rewrite Nat2Z.id, drop_app_length. apply take_ge. lia.
Qed.

(** ** The checksum *)

Lemma sum_ord_app s t : sum_ord (s ++ t) = sum_ord s + sum_ord t.
Proof. unfold sum_ord. induction s as [| c r IH]; simpl; [done | rewrite IH; lia]. Qed.

Lemma ord_range c : 0 ≤ ord c < 256.
Proof.
  unfold ord. pose proof (nat_ascii_bounded c). lia.
Qed.

Lemma sum_ord_nonneg s : 0 ≤ sum_ord s.
Proof.
  unfold sum_ord. induction s as [| c r IH]; simpl; [done |].
  pose proof (ord_range c). lia.
Qed.

Lemma sum_ord_ascii s : forallb is_ascii s = true → sum_ord s ≤ 127 * len s.
Proof.
  unfold sum_ord, len. induction s as [| c r IH]; simpl; [done |].
  intros [Hc Hr]%andb_true_iff. specialize (IH Hr).
  unfold is_ascii in Hc. lia.
Qed.

(** XOR with [0xFFFF] is the 16-bit complement. *)
Lemma lxor_ffff r : 0 ≤ r < 65536 → Z.lxor r 0xFFFF = 65535 - r.
Proof.
  intros Hr.
  assert (Z.land r (Z.lxor r 0xFFFF) = 0) as Hdisj.
  { apply Z.bits_inj'. intros i Hi.
    rewrite Z.land_spec, Z.lxor_spec, Z.bits_0.
    destruct (Z.lt_ge_cases i 16).
    - change 0xFFFF with (Z.ones 16). rewrite Z.ones_spec_low by lia.
      by destruct (Z.testbit r i).
    - replace (Z.testbit r i) with false; [done |].
      symmetry. destruct (Z.eq_dec r 0) as [-> | ?]; [apply Z.bits_0 |].
      apply Z.bits_above_log2; [lia |].
      apply Z.log2_lt_pow2; [lia |].
      apply Z.lt_le_trans with (2 ^ 16); [lia |]. apply Z.pow_le_mono_r; lia. }
  apply Z.add_nocarry_lxor in Hdisj.
  rewrite <- Z.lxor_assoc, Z.lxor_nilpotent, Z.lxor_0_l in Hdisj.
  change 0xFFFF with 65535 in *. lia.
Qed.

Lemma checksum_of_eq s : checksum_of s = 65536 - sum_ord s mod 65536.
Proof.
  unfold checksum_of. cbv zeta.
  pose proof (Z.mod_pos_bound (sum_ord s) 65536 ltac:(lia)).
  rewrite lxor_ffff by lia. lia.
Qed.

(** Without a final reduction the checksum lies in [1, 65536]. *)
Lemma checksum_of_range s : 1 ≤ checksum_of s ≤ 65536.
Proof.
  rewrite checksum_of_eq.
  pose proof (Z.mod_pos_bound (sum_ord s) 65536 ltac:(lia)). lia.
Qed.

(** ** Hexadecimal formatting *)

Lemma hex_char_digit d :
  0 ≤ d < 16 → hexdigit (hex_char d) = true ∧ digit_of (hex_char d) = d.
Proof.
  intros Hd.
  assert (∃ n : nat, d = Z.of_nat n ∧ (n < 16)%nat) as (n & -> & Hn).
  { exists (Z.to_nat d). lia. }
  do 16 (destruct n as [| n]; [by vm_compute |]). lia.
Qed.

Lemma hex_value_snoc s c : hex_value (s ++ [c]) = hex_value s * 16 + digit_of c.
Proof. unfold hex_value. by rewrite hex_value_from_app. Qed.

Lemma hex_digits_fuel_spec fuel n acc :
  0 ≤ n < 16 ^ Z.of_nat (S fuel) →
  ∃ ds, hex_digits_fuel (S fuel) n acc = ds ++ acc
        ∧ forallb hexdigit ds = true
        ∧ hex_value ds = n
        ∧ ds ≠ []
        ∧ ∀ k, 0 < k → n < 16 ^ k → len ds ≤ k.
Proof.
  revert n acc. induction fuel as [| f IH]; intros n acc Hn.
  - assert (n < 16) as Hlt by (change (16 ^ Z.of_nat 1) with 16 in Hn; lia).
    simpl. destruct (Z.ltb_spec n 16); [| lia].
    destruct (hex_char_digit (n mod 16)) as [Hh Hv]; [apply Z.mod_pos_bound; lia |].
    exists [hex_char (n mod 16)]. repeat split; try done.
    + simpl. by rewrite Hh.
    + unfold hex_value. simpl. rewrite Hv, Z.mod_small; lia.
    + intros k Hk _. unfold len. simpl. lia.
  - destruct (hex_char_digit (n mod 16)) as [Hh Hv]; [apply Z.mod_pos_bound; lia |].
    change (hex_digits_fuel (S (S f)) n acc) with
      (if n <? 16 then hex_char (n mod 16) :: acc
       else hex_digits_fuel (S f) (n / 16) (hex_char (n mod 16) :: acc)).
    destruct (Z.ltb_spec n 16).
    + exists [hex_char (n mod 16)]. repeat split; try done.
      * simpl. by rewrite Hh.
      * unfold hex_value. simpl. rewrite Hv, Z.mod_small; lia.
      * intros k Hk _. unfold len. simpl. lia.
    + assert (0 ≤ n / 16 < 16 ^ Z.of_nat (S f)) as Hq.
      { split; [apply Z.div_pos; lia |].
        apply Z.div_lt_upper_bound; [lia |].
        rewrite <- Z.pow_succ_r by lia. rewrite <- Nat2Z.inj_succ. lia. }
      destruct (IH (n / 16) (hex_char (n mod 16) :: acc) Hq)
        as (ds & Heq & Hhex & Hval & Hne & Hlen).
      exists (ds ++ [hex_char (n mod 16)]). repeat split.
      * rewrite Heq. by rewrite <- app_assoc.
      * rewrite forallb_app, Hhex. simpl. by rewrite Hh.
      * rewrite hex_value_snoc, Hval, Hv. pose proof (Z.div_mod n 16). lia.
      * by destruct ds.
      * intros k Hk Hnk. unfold len in *. rewrite length_app. simpl.
        assert (1 < k) as Hk1.
        { destruct (Z.eq_dec k 1) as [-> | ?]; [| lia]. change (16 ^ 1) with 16 in Hnk. lia. }
        specialize (Hlen (k - 1) ltac:(lia)).
        assert (n / 16 < 16 ^ (k - 1)) as Hdiv.
        { apply Z.div_lt_upper_bound; [lia |].
          rewrite <- Z.pow_succ_r by lia. by replace (Z.succ (k - 1)) with k by lia. }
        specialize (Hlen Hdiv). lia.
Qed.

Lemma hex_digits_spec n :
  0 ≤ n →
  forallb hexdigit (hex_digits n) = true
  ∧ hex_value (hex_digits n) = n
  ∧ hex_digits n ≠ []
  ∧ ∀ k, 0 < k → n < 16 ^ k → len (hex_digits n) ≤ k.
Proof.
  intros Hn. unfold hex_digits.
  destruct (hex_digits_fuel_spec (Z.to_nat (Z.log2 n)) n []) as (ds & Heq & H).
  - split; [done |].
    pose proof (Z.log2_nonneg n) as Hl.
    rewrite Nat2Z.inj_succ, Z2Nat.id by done.
    destruct (Z.eq_dec n 0) as [-> | Hz]; [by vm_compute |].
    pose proof (Z.log2_spec n ltac:(lia)) as [_ Hub].
    eapply Z.lt_le_trans; [exact Hub |].
    apply Z.pow_le_mono_l. lia.
  - rewrite Heq, app_nil_r. exact H.
Qed.

Lemma hex_value_zeros k s : hex_value (replicate k "0"%char ++ s) = hex_value s.
Proof.
  unfold hex_value. rewrite hex_value_from_app. f_equal.
  induction k as [| k IH]; [done |]. simpl. exact IH.
Qed.

Lemma forallb_replicate {A} (f : A → bool) k x : f x = true → forallb f (replicate k x) = true.
Proof. intros Hx. induction k as [| k IH]; simpl; [done | by rewrite Hx]. Qed.

(** A non-negative number below [16^w] is formatted as exactly [w] digits
    that read back as the number. *)
Lemma format_X_spec (w : nat) n :
  (0 < w)%nat → 0 ≤ n < 16 ^ Z.of_nat w →
  length (format_X w n) = w
  ∧ forallb hexdigit (format_X w n) = true
  ∧ hex_value (format_X w n) = n.
Proof.
  intros Hw Hn. unfold format_X.
  destruct (Z.ltb_spec n 0); [lia |]. rewrite Z.abs_eq by lia. simpl app.
  destruct (hex_digits_spec n ltac:(lia)) as (Hhex & Hval & Hne & Hlen).
  specialize (Hlen (Z.of_nat w) ltac:(lia) ltac:(lia)). unfold len in Hlen.
  repeat split.
  - rewrite length_app, length_replicate. simpl. lia.
  - rewrite forallb_app, Hhex, forallb_replicate; done.
  - by rewrite hex_value_zeros.
Qed.

(** Whatever the number, the formatted text is ASCII, and it is short when
    the number is. *)
Lemma format_X_ascii (w : nat) n : forallb is_ascii (format_X w n) = true.
Proof.
  unfold format_X.
  destruct (hex_digits_spec (Z.abs n) ltac:(lia)) as (Hhex & _).
  rewrite !forallb_app, forallb_replicate by done.
  assert (forallb is_ascii (hex_digits (Z.abs n)) = true) as ->.
  { apply forallb_Forall. apply forallb_Forall in Hhex.
    eapply Forall_impl; [exact Hhex |]. intros c. apply hexdigit_ascii. }
  by destruct (n <? 0).
Qed.

Lemma format_X_length (w : nat) n k :
  0 < k → Z.abs n < 16 ^ k → len (format_X w n) ≤ Z.max (Z.of_nat w) (k + 1).
Proof.
  intros Hk Hn. unfold format_X, len.
  destruct (hex_digits_spec (Z.abs n) ltac:(lia)) as (_ & _ & _ & Hlen).
  specialize (Hlen k Hk Hn). unfold len in Hlen.
  rewrite !length_app, length_replicate.
  destruct (n <? 0); simpl; lia.
Qed.

(** ** Frame codec *)

Lemma decode_ascii_ok b : forallb is_ascii b = true → decode_ascii b = Ok b.
Proof. intros H. unfold decode_ascii. by rewrite H. Qed.

(** The frame [_build_command] assembles, for an ASCII command. *)
Lemma build_command_frame self command battery_number info_byte :
  forallb is_ascii command = true →
  let body := lit "22" ++ format_X 2 (_calculate_address self battery_number)
              ++ lit "4A" ++ command ++ lit "E002" ++ lit "FF" in
  forallb is_ascii body = true
  ∧ _build_command self command battery_number info_byte
    = Ok (SOI :: body ++ format_X 4 (checksum_of body) ++ [EOI]).
Proof.
  intros Hc body.
  assert (forallb is_ascii body = true) as Hbody.
  { subst body. by rewrite !forallb_app, format_X_ascii, Hc. }
  split; [done |].
  unfold _build_command. cbv zeta. rewrite <- !app_assoc.
  change ([SOI] ++ ?x) with (SOI :: x). rewrite slice_a_cons.
  fold body. rewrite (decode_ascii_ok body Hbody).
  cbn [mbind result_bind]. by rewrite <- app_assoc.
Qed.

(** A frame whose last four digits read as the checksum of what precedes
    them is accepted. *)
Lemma verify_checksum_framed body chk :
  forallb is_ascii body = true →
  length chk = 4%nat →
  forallb hexdigit chk = true →
  hex_value chk = checksum_of body →
  _verify_checksum (SOI :: body ++ chk ++ [EOI]) = true.
Proof.
  intros Hbody Hlen Hhex Hval. unfold _verify_checksum.
  rewrite app_assoc, slice_ab_strip.
  rewrite decode_ascii_ok.
  2:{ rewrite forallb_app, Hbody. apply forallb_Forall. apply forallb_Forall in Hhex.
      eapply Forall_impl; [exact Hhex |]. intros c. apply hexdigit_ascii. }
  cbn [mbind result_bind].
  rewrite slice_a_app4, slice_b_app4 by done.
  rewrite int16_hex by (try done; by destruct chk).
  cbn [mbind result_bind]. rewrite Hval, Z.eqb_refl. reflexivity.
Qed.

(** The round trip holds whenever the checksum fits in four digits. *)
Lemma build_command_verifies_when self command battery_number info_byte :
  forallb is_ascii command = true →
  sum_ord (lit "22" ++ format_X 2 (_calculate_address self battery_number)
           ++ lit "4A" ++ command ++ lit "E002" ++ lit "FF") mod 65536 ≠ 0 →
  ∃ frame, _build_command self command battery_number info_byte = Ok frame
           ∧ _verify_checksum frame = true.
Proof.
  intros Hc Hsum.
  destruct (build_command_frame self command battery_number info_byte Hc) as [Hbody Hbuild].
  cbv zeta in *. eexists. split; [exact Hbuild |].
  set (body := lit "22" ++ _) in *.
  pose proof (checksum_of_eq body) as Heq.
  pose proof (Z.mod_pos_bound (sum_ord body) 65536 ltac:(lia)) as Hm.
  destruct (format_X_spec 4 (checksum_of body)) as (Hlen & Hhex & Hval); [lia | |].
  { change (16 ^ Z.of_nat 4) with 65536. lia. }
  by apply verify_checksum_framed.
Qed.

(** C3. Checksum round trip: for every ASCII command code of up to 256
    bytes, every battery number, absent included, and every group number
    for which the address is a 64-bit quantity, the frame produced by
    [_build_command] exists and passes [_verify_checksum]. *)
Theorem build_command_verifies self command battery_number info_byte :
  forallb is_ascii command = true →
  (length command ≤ 256)%nat →
  Z.abs (_calculate_address self battery_number) < 2 ^ 64 →
  ∃ frame, _build_command self command battery_number info_byte = Ok frame
           ∧ _verify_checksum frame = true.
Proof.
  intros Hc Hlen Haddr. apply build_command_verifies_when; [done |].
  set (addr := format_X 2 (_calculate_address self battery_number)).
  assert (len addr ≤ 17) as Hla.
  { pose proof (format_X_length 2 (_calculate_address self battery_number) 16
                  ltac:(lia) ltac:(by change (16 ^ 16) with (2 ^ 64))). subst addr. lia. }
  assert (forallb is_ascii addr = true) as Ha by apply format_X_ascii.
  rewrite !sum_ord_app.
  pose proof (sum_ord_ascii addr Ha). pose proof (sum_ord_nonneg addr).
  pose proof (sum_ord_ascii command Hc). pose proof (sum_ord_nonneg command).
  change (sum_ord (lit "22")) with 100. change (sum_ord (lit "4A")) with 117.
  change (sum_ord (lit "E002")) with 215. change (sum_ord (lit "FF")) with 140.
  unfold len in *. rewrite Z.mod_small; lia.
Qed.

Lemma build_command_verifies_witness :
  ∃ frame, _build_command (__init__ 4 1) (lit "4F") (Some 0) None = Ok frame
           ∧ _verify_checksum frame = true.
Proof.
  apply (build_command_verifies (__init__ 4 1) (lit "4F") (Some 0) None).
  - reflexivity.
  - simpl. lia.
  - vm_compute. reflexivity.
Defined.

(** C8. For group number 0 and no battery number, the command ["42"] is
    framed as [~22004A42E002FFFCFE\r]: SOI, VER 22, ADR 00 (the address is
    [0x10 * group]), CID1 4A, CID2 42, LENGTH E002, INFO FF, checksum FCFE,
    EOI; the checksum of the body [22004A42E002FF] is [0xFCFE]. *)
Theorem build_command_analog_query battery_count info_byte :
  let self := __init__ battery_count 0 in
  _calculate_address self None = 0x10 * _group_number self
  ∧ _build_command self (lit "42") None info_byte
    = Ok ([SOI] ++ lit "22" ++ lit "00" ++ lit "4A" ++ lit "42"
            ++ lit "E002" ++ lit "FF" ++ lit "FCFE" ++ [EOI])
  ∧ checksum_of (lit "22004A42E002FF") = 0xFCFE.
Proof.
  cbv zeta. split; [reflexivity |]. split; [| by vm_compute].
  destruct info_byte; by vm_compute.
Qed.

(** C4, on the code: the add-1 step is not reduced, so a body whose ASCII
    sum is a multiple of 65536 (the empty body; [wrap_body], of sum 65536)
    gets the checksum [0x10000], not 0, and the frame carrying the 16-bit
    checksum [0000] for such a body is refused. *)
Theorem checksum_not_reduced :
  checksum_of [] = 0x10000
  ∧ _calculate_checksum [] = 0x10000
  ∧ sum_ord wrap_body = 65536
  ∧ checksum_of wrap_body = 0x10000
  ∧ ¬ checksum_of wrap_body < 65536
  ∧ _verify_checksum wrap_frame = false.
Proof. repeat split; try by vm_compute. Qed.

(** ** Field decoder *)

Lemma forallb_take_drop {A} (f : A → bool) (l : list A) n m :
  forallb f l = true → forallb f (take n (drop m l)) = true.
Proof.
  rewrite !forallb_Forall. intros H. by apply Forall_take, Forall_drop.
Qed.

Lemma hex_window_sub decoded p w a b :
  hex_window decoded p w → p ≤ a → a ≤ b → b ≤ p + w →
  forallb hexdigit (slice_ab decoded a b) = true.
Proof.
  intros (Hp & Hlen & Hhex) Ha Hab Hb.
  rewrite (slice_ab_sub decoded p (p + w) a b) by lia.
  rewrite slice_ab_inside.
  - by apply forallb_take_drop.
  - lia.
  - lia.
  - rewrite slice_ab_length by lia. lia.
Qed.

Lemma slice_ab_nonempty {A} (s : list A) a b :
  0 ≤ a → a < b → b ≤ len s → slice_ab s a b ≠ [].
Proof.
  intros Ha Hab Hb Hnil.
  pose proof (slice_ab_length s a b ltac:(lia) ltac:(lia) Hb) as Hl.
  rewrite Hnil in Hl. unfold len in Hl. simpl in Hl. lia.
Qed.

(** Reading a field that lies inside a window of hexadecimal digits. *)
Lemma read_int_hex decoded p w a b :
  hex_window decoded p w → p ≤ a → a < b → b ≤ p + w →
  read_int decoded a b = Ok (hex_value (slice_ab decoded a b)).
Proof.
  intros Hw Ha Hab Hb. unfold read_int. apply int16_hex.
  - eapply hex_window_sub; [exact Hw | lia ..].
  - destruct Hw as (? & ? & _). apply slice_ab_nonempty; lia.
Qed.

(** Up to 52 bits the integer converts to a float as it is, and the
    division goes through. *)
Lemma float_overflow_above : 2 ^ 52 < float_overflow.
Proof. by vm_compute. Qed.

Lemma py_truediv_small a scale :
  Z.abs a ≤ 2 ^ 52 → Qeq_bool scale 0 = false →
  py_truediv a scale = Ok (inject_Z a / scale)%Q.
Proof.
  intros Ha Hs. unfold py_truediv. pose proof float_overflow_above.
  destruct (Z.leb_spec float_overflow (Z.abs a)); [lia |]. by rewrite Hs.
Qed.

Lemma py_truediv_zero a scale :
  Z.abs a ≤ 2 ^ 52 → Qeq_bool scale 0 = true →
  py_truediv a scale = Raise ZeroDivisionError.
Proof.
  intros Ha Hs. unfold py_truediv. pose proof float_overflow_above.
  destruct (Z.leb_spec float_overflow (Z.abs a)); [lia |]. by rewrite Hs.
Qed.

Lemma width_13_bits d : 0 < d → d ≤ 13 → 2 ^ (d * 4) ≤ 2 ^ 52.
Proof. intros. apply Z.pow_le_mono_r; lia. Qed.

(** The steps of [convert_signed] before the division, on a field of
    hexadecimal digits of any width. *)
Lemma convert_signed_steps decoded pos d scale :
  0 ≤ pos → 0 < d → pos + d ≤ len decoded →
  forallb hexdigit (slice_ab decoded pos (pos + d)) = true →
  convert_signed decoded pos d scale
  = py_truediv (signed_fold d (hex_value (slice_ab decoded pos (pos + d)))) scale.
Proof.
  intros Hpos Hd Hlen Hhex. unfold convert_signed.
  rewrite int16_hex; [| done | apply slice_ab_nonempty; lia].
  cbn [mbind result_bind]. unfold py_lshift.
  destruct (Z.ltb_spec (d * 4 - 1) 0); [lia |]. cbn [mbind result_bind].
  rewrite Z.shiftl_1_l. unfold signed_fold.
  replace (4 * d - 1) with (d * 4 - 1) by lia. replace (4 * d) with (d * 4) by lia.
  destruct (2 ^ (d * 4 - 1) <=? hex_value (slice_ab decoded pos (pos + d))).
  - destruct (Z.ltb_spec (d * 4) 0); [lia |]. cbn [mbind result_bind].
    by rewrite Z.shiftl_1_l.
  - by cbn [mbind result_bind].
Qed.

Lemma hex_field_bounds decoded pos d :
  0 ≤ pos → 0 < d → pos + d ≤ len decoded →
  0 ≤ hex_value (slice_ab decoded pos (pos + d)) < 2 ^ (d * 4).
Proof.
  intros Hpos Hd Hlen.
  pose proof (hex_value_bounds (slice_ab decoded pos (pos + d))) as Hb.
  rewrite slice_ab_length in Hb by lia.
  replace (pos + d - pos) with d in Hb by lia.
  replace (2 ^ (d * 4)) with (16 ^ d); [exact Hb |].
  change 16 with (2 ^ 4). rewrite <- Z.pow_mul_r by lia. f_equal. lia.
Qed.

Lemma signed_fold_abs d v : 0 ≤ v < 2 ^ (d * 4) → Z.abs (signed_fold d v) ≤ 2 ^ (d * 4).
Proof.
  replace (d * 4) with (4 * d) by lia. intros Hv. unfold signed_fold.
  destruct (2 ^ (4 * d - 1) <=? v); lia.
Qed.

Lemma convert_signed_hex decoded pos d scale :
  0 ≤ pos → 0 < d → d ≤ 13 → pos + d ≤ len decoded →
  forallb hexdigit (slice_ab decoded pos (pos + d)) = true →
  Qeq_bool scale 0 = false →
  convert_signed decoded pos d scale
  = Ok (inject_Z (signed_fold d (hex_value (slice_ab decoded pos (pos + d)))) / scale)%Q.
Proof.
  intros Hpos Hd Hwide Hlen Hhex Hscale.
  rewrite convert_signed_steps by done.
  apply py_truediv_small; [| done].
  pose proof (hex_field_bounds decoded pos d Hpos Hd Hlen) as Hb.
  pose proof (signed_fold_abs d _ Hb). pose proof (width_13_bits d Hd Hwide). lia.
Qed.

Lemma convert_signed_window decoded p w a scale :
  hex_window decoded p w → p ≤ a → a + 4 ≤ p + w →
  Qeq_bool scale 0 = false →
  convert_signed decoded a 4 scale
  = Ok (inject_Z (signed_fold 4 (hex_value (slice_ab decoded a (a + 4)))) / scale)%Q.
Proof.
  intros Hw Ha Hb Hs. pose proof Hw as (? & ? & _).
  apply convert_signed_hex; try lia; try done.
  eapply hex_window_sub; [exact Hw | lia ..].
Qed.

(** C5. On a string holding [d] hexadecimal digits at the offset,
    [convert_signed] reads them as an unsigned number, subtracts [2^(4d)]
    exactly when the number is at least [2^(4d-1)], and divides by the
    scale; at width 4 and scale 1, [FFFF] gives -1, [7FFF] gives 32767 and
    [8000] gives -32768. The width is any number of digits up to 13: the
    folded number then has at most 52 bits, it converts to a float as it
    is, and the division neither overflows nor rounds twice. *)
Theorem convert_signed_fold decoded pos d scale :
  0 ≤ pos → 0 < d → d ≤ 13 → pos + d ≤ len decoded →
  forallb hexdigit (slice_ab decoded pos (pos + d)) = true →
  ¬ (scale == 0)%Q →
  let v := hex_value (slice_ab decoded pos (pos + d)) in
  0 ≤ v < 2 ^ (4 * d)
  ∧ convert_signed decoded pos d scale
    = Ok (inject_Z (if 2 ^ (4 * d - 1) <=? v then v - 2 ^ (4 * d) else v) / scale)%Q
  ∧ convert_signed (lit "FFFF") 0 4 1 = Ok (inject_Z (-1))
  ∧ convert_signed (lit "7FFF") 0 4 1 = Ok (inject_Z 32767)
  ∧ convert_signed (lit "8000") 0 4 1 = Ok (inject_Z (-32768)).
Proof.
  intros Hpos Hd Hwide Hlen Hhex Hscale v. split; [| split; [| by vm_compute]].
  - pose proof (hex_field_bounds decoded pos d Hpos Hd Hlen) as Hb.
    by replace (d * 4) with (4 * d) in Hb by lia.
  - rewrite (convert_signed_hex decoded pos d scale) by
      (try done; by apply not_true_is_false; rewrite Qeq_bool_iff).
    reflexivity.
Qed.

Lemma convert_signed_fold_witness :
  convert_signed (lit "12FFFE34") 2 4 10 = Ok (inject_Z (-2) / 10)%Q.
Proof.
  refine (proj1 (proj2 (convert_signed_fold (lit "12FFFE34") 2 4 10 _ _ _ _ _ _))).
  - lia.
  - lia.
  - lia.
  - vm_compute. discriminate.
  - reflexivity.
  - intros H. vm_compute in H. discriminate.
Defined.

(** ** Header block parser *)

Ltac read_step Hw :=
  match goal with
  | |- context [read_int ?dec ?a ?b] =>
      rewrite (read_int_hex dec _ _ a b Hw) by lia
  | |- context [convert_signed ?dec ?a 4 ?s] =>
      rewrite (convert_signed_window dec _ _ a s Hw) by first [lia | reflexivity]
  end;
  cbn [mbind result_bind].

(** On a window of 66 hexadecimal digits the header parse succeeds, the
    next offset is 66 further, and each field is read where the code says. *)
Lemma parse_header_block_hex decoded pos :
  hex_window decoded pos 66 →
  ∃ h, _parse_header_block decoded pos = Ok (h, pos + 66)
       ∧ Header.voltage h = unsigned_at decoded pos 100
       ∧ Header.current h = signed_at decoded (pos + 4) 1
       ∧ Header.total_capacity h = hex_value (slice_ab decoded (pos + 8) (pos + 12))
       ∧ Header.remaining_capacity h = hex_value (slice_ab decoded (pos + 12) (pos + 16))
       ∧ Header.soc h = hex_value (slice_ab decoded (pos + 16) (pos + 20))
       ∧ Header.max_ambient_temp h = signed_at decoded (pos + 20) 10
       ∧ Header.min_ambient_temp h = signed_at decoded (pos + 24) 10
       ∧ Header.max_cell_voltage h = hex_value (slice_ab decoded (pos + 28) (pos + 32))
       ∧ Header.min_cell_voltage h = hex_value (slice_ab decoded (pos + 32) (pos + 36))
       ∧ Header.temperature_max h = signed_at decoded (pos + 40) 10
       ∧ Header.temperature_min h = signed_at decoded (pos + 44) 10
       ∧ Header.reserved h = slice_ab decoded (pos + 44) (pos + 62)
       ∧ Header.cell_count h = hex_value (slice_ab decoded (pos + 62) (pos + 64))
       ∧ Header.battery_count h = hex_value (slice_ab decoded (pos + 64) (pos + 66)).
Proof.
  intros Hw. unfold _parse_header_block.
  repeat read_step Hw.
  eexists. split; [reflexivity |]. simpl. done.
Qed.

Lemma slice_in_window {A} (s : list A) p w a b :
  0 ≤ p → p + w ≤ len s → p ≤ a → a ≤ b → b ≤ p + w →
  slice_ab s a b = slice_ab (slice_ab s p (p + w)) (a - p) (b - p).
Proof. intros. apply slice_ab_sub; lia. Qed.

(** The header is a function of the 66-digit window alone: two strings
    that hold the same window, at whatever offsets, give the same header. *)
Lemma parse_header_block_local d1 p1 d2 p2 :
  hex_window d1 p1 66 → hex_window d2 p2 66 →
  slice_ab d1 p1 (p1 + 66) = slice_ab d2 p2 (p2 + 66) →
  ∃ h, _parse_header_block d1 p1 = Ok (h, p1 + 66)
       ∧ _parse_header_block d2 p2 = Ok (h, p2 + 66).
Proof.
  intros Hw1 Hw2 Hsame.
  destruct (parse_header_block_hex d1 p1 Hw1) as (h1 & Hp1 & F1).
  destruct (parse_header_block_hex d2 p2 Hw2) as (h2 & Hp2 & F2).
  exists h1. split; [exact Hp1 |]. rewrite Hp2. do 2 f_equal.
  destruct Hw1 as (Hlo1 & Hhi1 & _), Hw2 as (Hlo2 & Hhi2 & _).
  unfold unsigned_at, signed_at in F1, F2.
  pose (W1 := slice_ab d1 p1 (p1 + 66)). pose (W2 := slice_ab d2 p2 (p2 + 66)).
  repeat match type of F1 with
         | context [slice_ab d1 ?a ?b] =>
             rewrite (slice_in_window d1 p1 66 a b) in F1 by lia;
             fold W1 in F1;
             ring_simplify (a - p1) (b - p1) in F1
         end.
  repeat match type of F2 with
         | context [slice_ab d2 ?a ?b] =>
             rewrite (slice_in_window d2 p2 66 a b) in F2 by lia;
             fold W2 in F2;
             ring_simplify (a - p2) (b - p2) in F2
         end.
  assert (W2 = W1) as HW by (subst W1 W2; done). rewrite HW in F2. clearbody W1.
  destruct h1, h2. simpl in F1, F2.
  destruct_and!. by simplify_eq.
Qed.

(** C7, on the code: the documented example window. The parse returns
    offset 12 + 66 and decodes voltage 55.41, current 0, capacities 420,
    SOC 100, the ambient temperatures, the cell-voltage extremes, the
    reserved span and the two counts at the documented digits, and
    [temperature_max] from digits 40-43; but [temperature_min] is read from
    digits 44-47, the first reserved digits, where the layout table puts it
    at digits 36-39 (0082, 13.0): those four digits are never read. *)
Theorem parse_header_block_documented_example :
  ∃ h, _parse_header_block (response_prefix ++ doc_header) 12 = Ok (h, 12 + 66)
       ∧ (Header.voltage h == 5541 / 100)%Q
       ∧ (Header.current h == 0)%Q
       ∧ Header.total_capacity h = 420
       ∧ Header.remaining_capacity h = 420
       ∧ Header.soc h = 100
       ∧ (Header.max_ambient_temp h == 16)%Q
       ∧ (Header.min_ambient_temp h == 15)%Q
       ∧ Header.max_cell_voltage h = 3626
       ∧ Header.min_cell_voltage h = 3354
       ∧ (Header.temperature_max h == 8)%Q
       ∧ Header.temperature_min h = signed_at (response_prefix ++ doc_header) (12 + 44) 10
       ∧ (Header.temperature_min h == 0)%Q
       ∧ ¬ (Header.temperature_min h == signed_at (response_prefix ++ doc_header) (12 + 36) 10)%Q
       ∧ (signed_at (response_prefix ++ doc_header) (12 + 36) 10 == 13)%Q
       ∧ Header.reserved h = lit "000000000000000000"
       ∧ Header.cell_count h = 16
       ∧ Header.battery_count h = 4.
Proof.
  eexists. split; [by vm_compute |]. simpl.
  repeat split; try by vm_compute.
Qed.

(** ** Battery block parser *)

Lemma read_cells_hex decoded p w n pos acc :
  hex_window decoded p w → p ≤ pos → pos + 4 * Z.of_nat n ≤ p + w →
  read_cells decoded n pos acc
  = Ok (acc ++ map (λ k, unsigned_at decoded (pos + 4 * Z.of_nat k) 1000) (seq 0 n),
        pos + 4 * Z.of_nat n).
Proof.
  intros Hw. revert pos acc. induction n as [| n IH]; intros pos acc Hp Hn.
  - simpl. rewrite app_nil_r. do 2 f_equal. lia.
  - cbn [read_cells]. rewrite (read_int_hex decoded p w) by (try done; lia).
    cbn [mbind result_bind]. rewrite IH by lia.
    rewrite <- app_assoc. cbn [seq map app]. rewrite <- seq_shift, map_map.
    f_equal. f_equal; [| lia]. f_equal. f_equal.
    + unfold unsigned_at. by rewrite Z.mul_0_r, Z.add_0_r.
    + apply map_ext. intros k. f_equal. lia.
Qed.

Lemma read_pack_temps_hex decoded p w n pos acc :
  hex_window decoded p w → p ≤ pos → pos + 4 * Z.of_nat n ≤ p + w →
  read_pack_temps decoded n pos acc
  = Ok (acc ++ map (λ k, signed_at decoded (pos + 4 * Z.of_nat k) 10) (seq 0 n),
        pos + 4 * Z.of_nat n).
Proof.
  intros Hw. revert pos acc. induction n as [| n IH]; intros pos acc Hp Hn.
  - simpl. rewrite app_nil_r. do 2 f_equal. lia.
  - cbn [read_pack_temps].
    rewrite (convert_signed_window decoded p w) by (try done; lia).
    cbn [mbind result_bind]. rewrite IH by lia.
    rewrite <- app_assoc. cbn [seq map app]. rewrite <- seq_shift, map_map.
    f_equal. f_equal; [| lia]. f_equal. f_equal.
    + unfold signed_at. by rewrite Z.mul_0_r, Z.add_0_r.
    + apply map_ext. intros k. f_equal. lia.
Qed.

(** Offsets written as running sums are collected into one constant. *)
Ltac norm_offsets :=
  repeat match goal with
         | |- context [?x + Zpos ?a + Zpos ?b] =>
             let c := eval compute in (Zpos a + Zpos b) in
             replace (x + Zpos a + Zpos b) with (x + c) by lia
         end.

Ltac loop_step Hw :=
  match goal with
  | |- context [read_cells ?dec ?n ?a ?acc] =>
      rewrite (read_cells_hex dec _ _ n a acc Hw) by lia
  | |- context [read_pack_temps ?dec ?n ?a ?acc] =>
      rewrite (read_pack_temps_hex dec _ _ n a acc Hw) by lia
  end;
  cbn [mbind result_bind];
  repeat match goal with
         | |- context [Zpos ?a * Z.of_nat ?n] =>
             let c := eval compute in (Zpos a * Z.of_nat n) in
             change (Zpos a * Z.of_nat n) with c
         end;
  norm_offsets.

(** The parse of a block of 212 hexadecimal digits whose cell count is 16
    and whose sensor count is 4. *)
Lemma parse_battery_block_hex decoded p :
  hex_window decoded p 212 →
  read_int decoded (p + 10) (p + 12) = Ok 0x10 →
  read_int decoded (p + 88) (p + 90) = Ok 0x04 →
  ∃ battery,
    _parse_battery_block decoded p = Ok (battery, p + 212)
    ∧ Battery.cell_count battery = 16
    ∧ Battery.cells battery
      = map (λ k, unsigned_at decoded (p + 12 + 4 * Z.of_nat k) 1000) (seq 0 16)
    ∧ Battery.pack_temp_sensor_count battery = 4
    ∧ Battery.pack_temperatures battery
      = map (λ k, signed_at decoded (p + 90 + 4 * Z.of_nat k) 10) (seq 0 4).
Proof.
  intros Hw Hcells Htemps. unfold _parse_battery_block. cbv zeta.
  norm_offsets. rewrite Hcells. repeat read_step Hw.
  change (Z.to_nat 16) with 16%nat. loop_step Hw.
  rewrite Htemps. repeat read_step Hw.
  change (Z.to_nat 4) with 4%nat. loop_step Hw.
  repeat read_step Hw.
  eexists. split; [reflexivity |]. cbn [Battery.cell_count Battery.cells
    Battery.pack_temp_sensor_count Battery.pack_temperatures]. done.
Qed.

Lemma hex_window_check decoded p w :
  (0 <=? p) && (p + w <=? len decoded)
    && forallb hexdigit (slice_ab decoded p (p + w)) = true →
  hex_window decoded p w.
Proof.
  intros [[H1%Z.leb_le H2%Z.leb_le]%andb_true_iff H3]%andb_true_iff.
  unfold hex_window. auto.
Qed.

(** C6. Battery block self-description: in a block of hexadecimal digits
    at offset [p] whose cell-count byte reads 0x10 and whose sensor-count
    byte reads 0x04, [_parse_battery_block] succeeds, takes the sixteen
    4-digit cell voltages from [p + 12] on and the four 4-digit pack
    temperatures from [p + 90] on (the two lists have 16 and 4 entries),
    and returns the next offset [p + 212]. *)
Theorem parse_battery_block_nominal decoded p :
  hex_window decoded p 212 →
  read_int decoded (p + 10) (p + 12) = Ok 0x10 →
  read_int decoded (p + 88) (p + 90) = Ok 0x04 →
  ∃ battery,
    _parse_battery_block decoded p = Ok (battery, p + 212)
    ∧ length (Battery.cells battery) = 16%nat
    ∧ length (Battery.pack_temperatures battery) = 4%nat
    ∧ (∀ k, (k < 16)%nat →
         Battery.cells battery !! k
         = Some (unsigned_at decoded (p + 12 + 4 * Z.of_nat k) 1000))
    ∧ (∀ k, (k < 4)%nat →
         Battery.pack_temperatures battery !! k
         = Some (signed_at decoded (p + 90 + 4 * Z.of_nat k) 10)).
Proof.
  intros Hw Hcells Htemps.
  destruct (parse_battery_block_hex decoded p Hw Hcells Htemps)
    as (battery & Hparse & _ & Hc & _ & Ht).
  exists battery. split; [exact Hparse |].
  rewrite Hc, Ht. repeat split.
  - intros k Hk. rewrite list_lookup_fmap, lookup_seq_lt by done. reflexivity.
  - intros k Hk. rewrite list_lookup_fmap, lookup_seq_lt by done. reflexivity.
Qed.

Lemma parse_battery_block_nominal_witness :
  ∃ battery,
    _parse_battery_block (response_prefix ++ doc_header ++ sample_block) 78
    = Ok (battery, 78 + 212)
    ∧ length (Battery.cells battery) = 16%nat
    ∧ length (Battery.pack_temperatures battery) = 4%nat.
Proof.
  destruct (parse_battery_block_nominal (response_prefix ++ doc_header ++ sample_block) 78)
    as (battery & Hparse & Hc & Ht & _).
  - apply hex_window_check. reflexivity.
  - reflexivity.
  - reflexivity.
  - exists battery. auto.
Defined.

(** ** Transport read loop *)

Lemma slice_ab_neg1 {A} (s : list A) a :
  1 ≤ len s → slice_ab s a (-1) = slice_ab s a (len s - 1).
Proof.
  intros Hl. unfold slice_ab, slice, clamp_index, len in *.
  change (-1 <? 0) with true. cbv iota.
  destruct (Z.ltb_spec (Z.of_nat (length s) - 1) 0); [lia |].
  do 3 f_equal. lia.
Qed.

(** The return code [_validate_response] looks at is the CID2 position of
    the frame. *)
Lemma validated_return_code f hex_str :
  10 ≤ len f →
  decode_ascii (slice_ab f 1 (-1)) = Ok hex_str →
  slice_ab hex_str 6 8 = return_code f.
Proof.
  intros Hl Hdec. unfold decode_ascii in Hdec.
  destruct (forallb is_ascii (slice_ab f 1 (-1))); [| discriminate].
  injection Hdec as <-. unfold return_code.
  rewrite slice_ab_neg1 by lia.
  rewrite (slice_ab_sub f 1 (len f - 1) 7 9) by lia. reflexivity.
Qed.

Lemma validate_response_spec f :
  10 ≤ len f → _verify_checksum f = true →
  _validate_response f = bool_decide (return_code f = lit "00").
Proof.
  intros Hl Hv. unfold _verify_checksum in Hv. unfold _validate_response.
  destruct (decode_ascii (slice_ab f 1 (-1))) as [hex_str | e] eqn:Hdec;
    [| discriminate].
  cbn [mbind result_bind]. rewrite (validated_return_code f hex_str Hl Hdec).
  destruct (decide (return_code f = lit "00")) as [Heq | Hne].
  - rewrite Heq. reflexivity.
  - rewrite (bool_decide_eq_false_2 _ Hne).
    by destruct (bool_decide (return_code f ∈ rtn_codes.*1)).
Qed.

(** One turn of the loop: the candidate is returned when it passes the
    four gates and dropped otherwise. *)
Lemma read_response_step g rest :
  _read_response (Recv g :: rest)
  = if passes_gates g then Some g else _read_response rest.
Proof.
  cbn [_read_response]. unfold passes_gates, framed, min_response_length.
  destruct (startswith g [SOI]); [| done].
  destruct (endswith g [EOI]); [| done].
  destruct (_verify_checksum g) eqn:Hv; [| done].
  cbn [negb orb andb].
  destruct (Z.ltb_spec (len g) 30), (Z.leb_spec 30 (len g)); try lia; [done |].
  rewrite validate_response_spec by (try done; lia).
  by destruct (bool_decide (return_code g = lit "00")).
Qed.

(** C9. Whatever the reader delivers, [_read_response] returns a frame
    exactly when that frame is the first candidate that passes all four
    gates (SOI and EOI, checksum, minimum length, return code 00) and every
    candidate before it was a frame failing a gate; so a returned frame
    always has a verified checksum and return code 00. *)
Theorem read_response_first_valid evs f :
  (_read_response evs = Some f
   ↔ ∃ pre post, evs = pre ++ Recv f :: post
                 ∧ Forall dropped pre
                 ∧ passes_gates f = true)
  ∧ (_read_response evs = Some f →
     framed f = true ∧ _verify_checksum f = true
     ∧ min_response_length ≤ len f ∧ return_code f = lit "00").
Proof.
  assert (_read_response evs = Some f
          ↔ ∃ pre post, evs = pre ++ Recv f :: post
                        ∧ Forall dropped pre
                        ∧ passes_gates f = true) as Hiff.
  { split.
    - induction evs as [| [g |] rest IH]; [done | | done].
      rewrite read_response_step. destruct (passes_gates g) eqn:Hg.
      + intros [= ->]. exists [], rest. by repeat split.
      + intros (pre & post & -> & Hpre & Hf)%IH.
        exists (Recv g :: pre), post. repeat split; [| done].
        constructor; [| done]. by exists g.
    - intros (pre & post & -> & Hpre & Hf).
      induction Hpre as [| e pre (g & -> & Hg) _ IH].
      + cbn [app]. by rewrite read_response_step, Hf.
      + cbn [app]. by rewrite read_response_step, Hg. }
  split; [exact Hiff |].
  intros (pre & post & _ & _ & Hf)%Hiff. unfold passes_gates in Hf.
  apply andb_true_iff in Hf as [[[H1 H2]%andb_true_iff H3]%andb_true_iff H4].
  apply Z.leb_le in H3. apply bool_decide_eq_true in H4. done.
Qed.

(** ** Poll cycle *)

Lemma read_response_passes evs f :
  _read_response evs = Some f → passes_gates f = true.
Proof.
  induction evs as [| [g |] rest IH]; [done | | done].
  rewrite read_response_step. destruct (passes_gates g) eqn:Hg; [| exact IH].
  by intros [= <-].
Qed.

(** The analog query never fails to be built, and an accepted frame is
    never empty: [_send_command] hands over what the read loop returns. *)
Lemma send_command_query self line :
  _send_command self (lit "42") None line = Ok (analog_response line).
Proof.
  unfold _send_command, analog_response.
  destruct (build_command_frame self (lit "42") None None eq_refl) as [_ ->].
  cbn [mbind result_bind]. destruct (write_ok line); [| done].
  destruct (_read_response (incoming line)) as [response |] eqn:Hr; [| done].
  apply read_response_passes in Hr. rewrite bool_decide_eq_false_2; [done |].
  intros ->. by vm_compute in Hr.
Qed.

(** The loop calls the block parser once per iteration. *)
Lemma battery_loop_calls decoded n i pos d calls :
  length (battery_loop decoded n i pos d calls).2 = (length calls + n)%nat.
Proof.
  revert i pos d calls. induction n as [| n IH]; intros i pos d calls.
  - simpl. lia.
  - cbn [battery_loop].
    destruct (_parse_battery_block decoded pos) as [[battery_data pos'] | e];
      rewrite IH, length_app; simpl; lia.
Qed.

(** Once a block raises, the offset is never advanced: every later
    iteration parses the same offset again and nothing more is stored. *)
Lemma battery_loop_stuck decoded n i pos d calls e :
  _parse_battery_block decoded pos = Raise e →
  battery_loop decoded n i pos d calls = (d, calls ++ replicate n pos).
Proof.
  intros Hraise. revert i calls. induction n as [| n IH]; intros i calls.
  - simpl. by rewrite app_nil_r.
  - cbn [battery_loop]. rewrite Hraise, IH, <- app_assoc. reflexivity.
Qed.

(** C1, as the code has it. When the analog query gets no response the
    cycle returns the previous snapshot unchanged; when the header-stage
    parse raises, the snapshot has already been cleared and the cycle
    returns the empty snapshot. No battery block is parsed in either
    case. *)
Theorem poll_cycle_total_failure self line stage :
  total_failure line = Some stage →
  let c := _async_update_data self line in
  returned c = match stage with NoResponse => data self | HeaderStage => ∅ end
  ∧ data (coordinator c) = returned c
  ∧ parse_calls c = [].
Proof.
  unfold total_failure, _async_update_data, decoded_of.
  rewrite send_command_query.
  destruct (analog_response line) as [response |].
  - destruct (_parse_header_block _ 12) as [[header_data pos] | e]; [done |].
    by intros [= <-].
  - by intros [= <-].
Qed.

Lemma poll_cycle_total_failure_witness :
  returned (_async_update_data after_first_poll (line_of response_truncated)) = ∅.
Proof.
  refine (proj1 (poll_cycle_total_failure after_first_poll
                   (line_of response_truncated) HeaderStage _)).
  by vm_compute.
Defined.

(** C1 as stated fails: after a first poll that stored the group entry
    and two batteries, a response whose header cannot be parsed is a total
    failure of the cycle, and the snapshot returned has lost the group
    entry and both batteries. *)
Lemma poll_cycle_header_failure_clears :
  total_failure (line_of response_truncated) = Some HeaderStage
  ∧ is_Some (data after_first_poll !! KStr "group")
  ∧ is_Some (data after_first_poll !! KInt 1)
  ∧ is_Some (data after_first_poll !! KInt 2)
  ∧ returned (_async_update_data after_first_poll (line_of response_truncated))
      !! KStr "group" = None
  ∧ returned (_async_update_data after_first_poll (line_of response_truncated))
      !! KInt 1 = None
  ∧ returned (_async_update_data after_first_poll (line_of response_truncated))
    ≠ data after_first_poll.
Proof.
  assert (returned (_async_update_data after_first_poll (line_of response_truncated)) = ∅)
    as -> by (by vm_compute).
  assert (is_Some (data after_first_poll !! KStr "group")) as Hg.
  { vm_compute. eauto. }
  split; [by vm_compute |]. split; [exact Hg |].
  split; [vm_compute; eauto |]. split; [vm_compute; eauto |].
  split; [done |]. split; [done |].
  intros Heq. rewrite <- Heq, lookup_empty in Hg. clear Heq.
  destruct Hg as [x Hx]. discriminate Hx.
Qed.

(** C2, on the code: two batteries are announced, the first block raises
    and the second block is well formed where it stands (at 78 + 212).
    The loop calls the parser twice at offset 78, and the snapshot holds
    the group entry but neither battery: the record of the other battery
    is missing. *)
Theorem poll_cycle_stale_offset :
  let decoded := decoded_of response_bad_first in
  let c := _async_update_data (__init__ 4 0) (line_of response_bad_first) in
  analog_response (line_of response_bad_first) = Some response_bad_first
  ∧ (∃ h, _parse_header_block decoded 12 = Ok (h, 78) ∧ Header.battery_count h = 2)
  ∧ is_ok (_parse_battery_block decoded 78) = false
  ∧ is_ok (_parse_battery_block decoded (78 + 212)) = true
  ∧ parse_calls c = [78; 78]
  ∧ is_Some (returned c !! KStr "group")
  ∧ returned c !! KInt 1 = None
  ∧ returned c !! KInt 2 = None.
Proof.
  cbv zeta. split; [by vm_compute |].
  split; [eexists; split; by vm_compute |].
  split; [by vm_compute |]. split; [by vm_compute |]. split; [by vm_compute |].
  split; [vm_compute; eauto |]. split; by vm_compute.
Qed.

(** C10. When the header parses, the block parser is called exactly
    [battery_count] times, [battery_count] being the header's field; the
    coordinator, and so the configured count it stores capped at 12, has
    no influence on the calls or on the snapshot. With a configured count
    of 1 and a header announcing 13 batteries, 13 blocks are parsed and 13
    battery entries stored. *)
Theorem blocks_parsed_follow_header self line response header pos :
  analog_response line = Some response →
  _parse_header_block (decoded_of response) 12 = Ok (header, pos) →
  let c := _async_update_data self line in
  length (parse_calls c) = Z.to_nat (Header.battery_count header)
  ∧ (∀ self', parse_calls (_async_update_data self' line) = parse_calls c
              ∧ returned (_async_update_data self' line) = returned c)
  ∧ (∀ configured group, _battery_count (__init__ configured group) = Z.min configured 12)
  ∧ (let c13 := _async_update_data (__init__ 1 0) (line_of response_thirteen) in
     length (parse_calls c13) = 13%nat
     ∧ ∀ i, 1 ≤ i ≤ 13 → is_Some (returned c13 !! KInt i)).
Proof.
  intros Hresp Hhead. cbv zeta. split; [| split; [| split; [done |]]].
  - unfold _async_update_data. rewrite send_command_query, Hresp.
    fold (decoded_of response). rewrite Hhead.
    match goal with
    | |- context [battery_loop ?a ?b ?c ?d ?e ?f] =>
        pose proof (battery_loop_calls a b c d e f) as Hlen;
        destruct (battery_loop a b c d e f) as [d' calls]
    end.
    simpl in *. lia.
  - intros self'. unfold _async_update_data. rewrite !send_command_query, Hresp.
    fold (decoded_of response). rewrite Hhead. cbn [set_data data].
    by destruct (battery_loop _ _ _ _ _ _).
  - split; [by vm_compute |].
    intros i Hi.
    assert (i = 1 ∨ i = 2 ∨ i = 3 ∨ i = 4 ∨ i = 5 ∨ i = 6 ∨ i = 7 ∨ i = 8
            ∨ i = 9 ∨ i = 10 ∨ i = 11 ∨ i = 12 ∨ i = 13) as Hcases by lia.
    repeat destruct Hcases as [-> | Hcases]; try subst i; vm_compute; eauto.
Qed.

Lemma blocks_parsed_follow_header_witness :
  ∃ header pos,
    _parse_header_block (decoded_of response_two) 12 = Ok (header, pos)
    ∧ length (parse_calls (_async_update_data (__init__ 4 0) (line_of response_two)))
      = Z.to_nat (Header.battery_count header).
Proof.
  assert (∃ hp, _parse_header_block (decoded_of response_two) 12 = Ok hp)
    as [[header pos] Hh].
  { eexists. vm_compute. reflexivity. }
  exists header, pos. split; [exact Hh |].
  refine (proj1 (blocks_parsed_follow_header (__init__ 4 0) (line_of response_two)
                   response_two header pos _ Hh)).
  vm_compute. reflexivity.
Defined.

(** * Further properties of the coordinator *)

(** ** Checksum and framing *)

(** X1. The checksum is the additive complement of the body: the ASCII
    sum of the body plus the checksum is a multiple of 65536, and the
    checksum lies between 1 and 65536. *)
Theorem checksum_complements_sum (data_str : str) :
  (sum_ord data_str + checksum_of data_str) mod 65536 = 0
  ∧ 1 ≤ checksum_of data_str ≤ 65536.
Proof.
  split; [| apply checksum_of_range].
  rewrite checksum_of_eq.
  replace (sum_ord data_str + (65536 - sum_ord data_str mod 65536))
    with (65536 * (sum_ord data_str / 65536 + 1))
    by (pose proof (Z.div_mod (sum_ord data_str) 65536); lia).
  by rewrite Z.mul_comm, Z.mod_mul.
Qed.

(** X2. [_build_command] succeeds exactly on ASCII commands, whatever the
    battery number, the group and the [info_byte] argument: the frame is
    SOI, "22", the address in at least two upper-case hexadecimal digits,
    "4A", the command, "E002", "FF", the checksum of all that and EOI. A
    command with a byte above 127 raises [UnicodeDecodeError]. *)
Theorem build_command_layout self command battery_number info_byte :
  _build_command self command battery_number info_byte
  = if forallb is_ascii command then
      let body := lit "22" ++ format_X 2 (_calculate_address self battery_number)
                  ++ lit "4A" ++ command ++ lit "E002" ++ lit "FF" in
      Ok ([SOI] ++ body ++ format_X 4 (checksum_of body) ++ [EOI])
    else Raise UnicodeDecodeError.
Proof.
  destruct (forallb is_ascii command) eqn:Hc.
  - by destruct (build_command_frame self command battery_number info_byte Hc) as [_ ->].
  - unfold _build_command. cbv zeta. rewrite <- !app_assoc.
    change ([SOI] ++ ?x) with (SOI :: x). rewrite slice_a_cons.
    unfold decode_ascii. rewrite !forallb_app, Hc.
    by rewrite !andb_false_r, !andb_false_l || rewrite andb_false_r.
Qed.

Lemma skip_spaces_length s : len (skip_spaces s) ≤ len s.
Proof.
  unfold len. induction s as [| c r IH]; simpl; [done |].
  destruct (is_space c); simpl; lia.
Qed.

Lemma strip_sign_spec s :
  (strip_sign s).1 = 1 ∨ (strip_sign s).1 = -1.
Proof.
  destruct s as [| c r]; simpl; [by left |].
  destruct (ord c =? 43); [by left |]. destruct (ord c =? 45); [by right | by left].
Qed.

Lemma strip_sign_length s : len (strip_sign s).2 ≤ len s.
Proof.
  unfold len. destruct s as [| c r]; simpl; [done |].
  destruct (ord c =? 43); [simpl; lia |]. destruct (ord c =? 45); simpl; lia.
Qed.

Lemma strip_prefix_length s : len (strip_prefix s) ≤ len s.
Proof.
  unfold len. destruct s as [| z [| x r]]; simpl; try lia.
  destruct ((ord z =? 48) && ((ord x =? 120) || (ord x =? 88))); simpl; [| lia].
  destruct r as [| u r']; simpl; [lia |]. destruct (is_underscore u); simpl; lia.
Qed.

Lemma scan_digits_bound s prev_us acc nd v nd' rest :
  scan_digits s prev_us acc nd = Some (v, nd', rest) →
  0 ≤ acc → acc ≤ v < (acc + 1) * 16 ^ len s.
Proof.
  revert prev_us acc nd. unfold len.
  induction s as [| c r IH]; intros prev_us acc nd Hscan Hacc.
  - simpl in Hscan. destruct prev_us; [done |]. simplify_eq. simpl. lia.
  - simpl length. rewrite Nat2Z.inj_succ, Z.pow_succ_r by lia.
    assert (0 < 16 ^ Z.of_nat (length r)) as Hpow by (apply Z.pow_pos_nonneg; lia).
    simpl in Hscan. destruct (is_underscore c).
    + destruct prev_us; [done |]. apply IH in Hscan; [| done]. nia.
    + destruct (digit_value c) as [d |] eqn:Hd.
      * pose proof (digit_value_range c d Hd). apply IH in Hscan; [| lia]. nia.
      * destruct prev_us; [done |]. simplify_eq. nia.
Qed.

(** A string of [n] characters never reads as a number of more than [n]
    hexadecimal digits. *)
Lemma int16_bound s v : int16 s = Ok v → Z.abs v < 16 ^ len s.
Proof.
  unfold int16. intros H.
  pose proof (skip_spaces_length s) as H1.
  pose proof (strip_sign_length (skip_spaces s)) as H2.
  pose proof (strip_sign_spec (skip_spaces s)) as Hsign.
  destruct (strip_sign (skip_spaces s)) as [sign s1]. simpl in H2, Hsign.
  pose proof (strip_prefix_length s1) as H3.
  destruct (strip_prefix s1) as [| c r] eqn:Hs2; [done |].
  destruct (is_underscore c); [done |].
  destruct (scan_digits (c :: r) false 0 0) as [[[v' nd] rest] |] eqn:Hscan; [| done].
  destruct nd as [| nd]; [done |]. destruct (skip_spaces rest); [| done].
  simplify_eq. apply scan_digits_bound in Hscan; [| done].
  assert (16 ^ len (c :: r) ≤ 16 ^ len s) as Hmono.
  { apply Z.pow_le_mono_r; [lia |]. lia. }
  destruct Hsign as [-> | ->]; lia.
Qed.

Lemma slice_a_neg4_length {A} (s : list A) : len (slice_a s (-4)) ≤ 4.
Proof.
  unfold slice_a, slice, clamp_index, len.
  change (-4 <? 0) with true. cbv iota.
  rewrite length_take, length_drop. lia.
Qed.

(** X3. A frame whose body (what precedes its last four characters) has
    an ASCII sum that is a multiple of 65536 is never accepted by
    [_verify_checksum], whatever checksum it carries. *)
Theorem verify_checksum_rejects_zero_sum (data : bytes) :
  sum_ord (slice_b (slice_ab data 1 (-1)) (-4)) mod 65536 = 0 →
  _verify_checksum data = false.
Proof.
  intros Hsum. unfold _verify_checksum, decode_ascii.
  destruct (forallb is_ascii (slice_ab data 1 (-1))); [| done].
  cbn [mbind result_bind].
  destruct (int16 (slice_a (slice_ab data 1 (-1)) (-4))) as [v | e] eqn:Hint; [| done].
  cbn [mbind result_bind].
  apply int16_bound in Hint.
  pose proof (slice_a_neg4_length (slice_ab data 1 (-1))) as Hlen.
  assert (16 ^ len (slice_a (slice_ab data 1 (-1)) (-4)) ≤ 16 ^ 4) as Hpow.
  { apply Z.pow_le_mono_r; lia. }
  rewrite checksum_of_eq, Hsum.
  destruct (Z.eqb_spec v (65536 - 0)); [| done]. lia.
Qed.

Lemma verify_checksum_rejects_zero_sum_witness : _verify_checksum wrap_frame = false.
Proof.
  apply (verify_checksum_rejects_zero_sum wrap_frame). by vm_compute.
Defined.

(** ** Addresses *)

Lemma slice_ab_app_mid {A} (a b c : list A) :
  slice_ab (a ++ b ++ c) (len a) (len a + len b) = b.
Proof.
  unfold len. rewrite slice_ab_inside.
  - rewrite Nat2Z.id, drop_app_length.
    replace (Z.to_nat (Z.of_nat (length a) + Z.of_nat (length b) - Z.of_nat (length a)))
      with (length b) by lia.
    apply take_app_length.
  - lia.
  - lia.
  - unfold len. rewrite !length_app. lia.
Qed.

(** What a built command looks like between SOI and EOI when the address
    takes two digits. *)
Lemma build_command_two_digit self command battery_number info_byte :
  forallb is_ascii command = true →
  0 ≤ _calculate_address self battery_number < 256 →
  ∃ adr rest,
    length adr = 2%nat
    ∧ int16 adr = Ok (_calculate_address self battery_number)
    ∧ forallb is_ascii (lit "22" ++ adr ++ lit "4A" ++ rest) = true
    ∧ _build_command self command battery_number info_byte
      = Ok (SOI :: (lit "22" ++ adr ++ lit "4A" ++ rest) ++ [EOI]).
Proof.
  intros Hc Haddr.
  destruct (build_command_frame self command battery_number info_byte Hc) as [Hbody Hbuild].
  cbv zeta in *.
  destruct (format_X_spec 2 (_calculate_address self battery_number))
    as (Hlen & Hhex & Hval); [lia | by change (16 ^ Z.of_nat 2) with 256 |].
  set (adr := format_X 2 (_calculate_address self battery_number)) in *.
  set (body := lit "22" ++ adr ++ _) in *.
  exists adr, (command ++ lit "E002" ++ lit "FF" ++ format_X 4 (checksum_of body)).
  split; [done |]. split.
  { rewrite int16_hex; [by rewrite Hval | done | by destruct adr]. }
  split.
  - subst body. rewrite !forallb_app in *. rewrite format_X_ascii.
    repeat (apply andb_true_iff in Hbody as [? Hbody] || idtac).
    rewrite !andb_true_r. repeat (apply andb_true_iff; split); try done.
  - rewrite Hbuild. subst body. by rewrite <- !app_assoc.
Qed.

(** X4. Address round trip: for an ASCII command and an address between
    0 and 255, [_get_battery_address] reads back from the frame built by
    [_build_command] the address [_calculate_address] computed. *)
Theorem get_battery_address_of_command self command battery_number info_byte :
  forallb is_ascii command = true →
  0 ≤ _calculate_address self battery_number < 256 →
  ∃ frame, _build_command self command battery_number info_byte = Ok frame
           ∧ _get_battery_address frame = Some (_calculate_address self battery_number).
Proof.
  intros Hc Haddr.
  destruct (build_command_two_digit self command battery_number info_byte Hc Haddr)
    as (adr & rest & Hlen & Hint & Hascii & ->).
  eexists. split; [reflexivity |].
  unfold _get_battery_address. rewrite slice_ab_strip, decode_ascii_ok by done.
  cbn [mbind result_bind].
  pose proof (slice_ab_app_mid (lit "22") adr (lit "4A" ++ rest)) as Hmid.
  unfold len in Hmid. rewrite Hlen in Hmid.
  change (Z.of_nat (length (lit "22"))) with 2 in Hmid.
  change (2 + Z.of_nat 2) with 4 in Hmid.
  by rewrite Hmid, Hint.
Qed.

Lemma get_battery_address_of_command_witness :
  ∃ frame, _build_command (__init__ 4 3) (lit "42") (Some 5) None = Ok frame
           ∧ _get_battery_address frame = Some 0x35.
Proof.
  apply (get_battery_address_of_command (__init__ 4 3) (lit "42") (Some 5) None).
  - reflexivity.
  - by vm_compute.
Defined.

(** X5. [_is_42h_response] looks at the fifth and sixth characters after
    SOI, which hold CID1: it answers [True] only for frames of at least
    nine bytes with "42" there, and so never for a command built by
    [_build_command] with a two-digit address, the command "42" included. *)
Theorem is_42h_response_tests_cid1 self command battery_number info_byte :
  forallb is_ascii command = true →
  0 ≤ _calculate_address self battery_number < 256 →
  (∀ response, _is_42h_response response = true →
               9 ≤ len response ∧ slice_ab response 5 7 = lit "42")
  ∧ ∃ frame, _build_command self command battery_number info_byte = Ok frame
             ∧ _is_42h_response frame = false.
Proof.
  intros Hc Haddr. split.
  - intros response. unfold _is_42h_response, decode_ascii.
    destruct (forallb is_ascii (slice_ab response 1 (-1))); [| done].
    cbn [mbind result_bind]. intros [Hlen Heq]%andb_true_iff.
    apply Z.ltb_lt in Hlen. apply bool_decide_eq_true in Heq.
    assert (9 ≤ len response) as Hl.
    { destruct (Z.le_gt_cases 1 (len response)) as [H1 | H1].
      - rewrite slice_ab_neg1 in Hlen by done.
        destruct (Z.le_gt_cases 2 (len response)).
        + rewrite slice_ab_length in Hlen by lia. lia.
        + replace (len response) with 1 in Hlen by lia.
          destruct response as [| ? [| ? ?]]; unfold len in *; simpl in *; lia.
      - destruct response; unfold len in *; simpl in *; [by vm_compute in Hlen | lia]. }
    split; [done |].
    rewrite slice_ab_neg1 in Heq by lia.
    rewrite (slice_ab_sub response 1 (len response - 1) 5 7) by lia. exact Heq.
  - destruct (build_command_two_digit self command battery_number info_byte Hc Haddr)
      as (adr & rest & Hlen & Hint & Hascii & ->).
    eexists. split; [reflexivity |].
    unfold _is_42h_response. rewrite slice_ab_strip, decode_ascii_ok by done.
    cbn [mbind result_bind].
    pose proof (slice_ab_app_mid (lit "22" ++ adr) (lit "4A") rest) as Hmid.
    rewrite <- !app_assoc in Hmid. unfold len in Hmid. rewrite length_app, Hlen in Hmid.
    change (Z.of_nat (length (lit "22") + 2)) with 4 in Hmid.
    change (4 + Z.of_nat (length (lit "4A"))) with 6 in Hmid.
    rewrite Hmid. by rewrite andb_false_r.
Qed.

Lemma is_42h_response_tests_cid1_witness :
  ∃ frame, _build_command (__init__ 4 0) (lit "42") None None = Ok frame
           ∧ _is_42h_response frame = false.
Proof.
  apply (is_42h_response_tests_cid1 (__init__ 4 0) (lit "42") None None).
  - reflexivity.
  - by vm_compute.
Defined.

(** X6. Addresses separate batteries and groups: two positions between 0
    and 15 get the same address only when they are the same position in
    the same group; and the system-wide query (no battery number) uses
    the address of position 0. *)
Theorem calculate_address_injective self self' position position' :
  0 ≤ position < 16 → 0 ≤ position' < 16 →
  (_calculate_address self (Some position) = _calculate_address self' (Some position')
   ↔ position = position' ∧ _group_number self = _group_number self')
  ∧ _calculate_address self None = _calculate_address self (Some 0).
Proof.
  intros Hp Hp'. unfold _calculate_address.
  change 0x10 with 16. change 0x0 with 0. split; [split |]; lia.
Qed.

Lemma calculate_address_injective_witness :
  _calculate_address (__init__ 4 2) None = _calculate_address (__init__ 4 2) (Some 0).
Proof.
  refine (proj2 (calculate_address_injective (__init__ 4 2) (__init__ 4 2) 3 3 _ _)); lia.
Defined.

(** X7. Whatever the command and the battery number, a response handed
    back by [_send_command] went through a successful write and passed
    the four gates of the read loop; and [_send_command] raises only by
    way of a command that is not ASCII. *)
Theorem send_command_validated self command battery_number line :
  (∀ response,
     _send_command self command battery_number line = Ok (Some response) →
     write_ok line = true ∧ passes_gates response = true)
  ∧ (∀ e, _send_command self command battery_number line = Raise e →
          forallb is_ascii command = false ∧ e = UnicodeDecodeError).
Proof.
  unfold _send_command.
  destruct (forallb is_ascii command) eqn:Hc.
  - destruct (build_command_frame self command battery_number None Hc) as [_ ->].
    cbn [mbind result_bind]. split.
    + intros response. destruct (write_ok line); [| done].
      destruct (_read_response (incoming line)) as [r |] eqn:Hr; [| done].
      destruct (bool_decide (r = [])); [done |]. intros [= <-].
      split; [done |]. by eapply read_response_passes.
    + intros e. destruct (write_ok line); [| done].
      destruct (_read_response (incoming line)) as [r |]; [| done].
      by destruct (bool_decide (r = [])).
  - assert (_build_command self command battery_number None = Raise UnicodeDecodeError)
      as ->.
    { unfold _build_command. cbv zeta. rewrite <- !app_assoc.
      change ([SOI] ++ ?x) with (SOI :: x). rewrite slice_a_cons.
      unfold decode_ascii. rewrite !forallb_app, Hc.
      by rewrite !andb_false_r, !andb_false_l || rewrite andb_false_r. }
    cbn [mbind result_bind]. split; [done |]. by intros e [= <-].
Qed.

(** ** Battery blocks of any size *)

Lemma read_cells_shape decoded n pos acc cells pos' :
  read_cells decoded n pos acc = Ok (cells, pos') →
  length cells = (length acc + n)%nat ∧ pos' = pos + 4 * Z.of_nat n.
Proof.
  revert pos acc. induction n as [| n IH]; intros pos acc H.
  - simpl in H. simplify_eq. lia.
  - cbn [read_cells] in H.
    destruct (read_int decoded pos (pos + 4)) as [v | e]; [| discriminate H].
    cbn [mbind result_bind] in H. apply IH in H as [Hl ->].
    rewrite length_app in Hl. simpl in Hl. lia.
Qed.

Lemma read_pack_temps_shape decoded n pos acc temps pos' :
  read_pack_temps decoded n pos acc = Ok (temps, pos') →
  length temps = (length acc + n)%nat ∧ pos' = pos + 4 * Z.of_nat n.
Proof.
  revert pos acc. induction n as [| n IH]; intros pos acc H.
  - simpl in H. simplify_eq. lia.
  - cbn [read_pack_temps] in H.
    destruct (convert_signed decoded pos 4 10) as [v | e]; [| discriminate H].
    cbn [mbind result_bind] in H. apply IH in H as [Hl ->].
    rewrite length_app in Hl. simpl in Hl. lia.
Qed.

(** Inversion of a successful sequence of reads. *)
Ltac invert_reads H :=
  repeat match type of H with
         | (?r ≫= _) = Ok _ =>
             let E := fresh "E" in
             destruct r as [? | ?] eqn:E;
             cbn [mbind result_bind] in H; [| discriminate H]
         | (let '(_, _) := ?p in _) = Ok _ => destruct p
         end.

(** What a successful parse says about the lists and the offset. *)
Lemma parse_battery_block_consumed_lemma decoded pos battery next :
  _parse_battery_block decoded pos = Ok (battery, next) →
  length (Battery.cells battery) = Z.to_nat (Battery.cell_count battery)
  ∧ length (Battery.pack_temperatures battery)
    = Z.to_nat (Battery.pack_temp_sensor_count battery)
  ∧ next = pos + 132 + 4 * len (Battery.cells battery)
           + 4 * len (Battery.pack_temperatures battery).
Proof.
  unfold _parse_battery_block. cbv zeta. intros H.
  invert_reads H.
  match goal with
  | Hc : read_cells _ _ _ _ = Ok _, Ht : read_pack_temps _ _ _ _ = Ok _ |- _ =>
      apply read_cells_shape in Hc as [Hlc Hpc];
      apply read_pack_temps_shape in Ht as [Hlt Hpt]
  end.
  injection H as <- <-. simpl in *. unfold len. lia.
Qed.

(** X8. A battery block describes its own length: whenever
    [_parse_battery_block] returns, the record holds as many cell voltages
    as the cell-count byte says and as many pack temperatures as the
    sensor-count byte says, and the next offset is the start offset plus
    132 digits for the fixed fields plus four digits per cell and per
    sensor. *)
Theorem parse_battery_block_consumed decoded pos battery next :
  _parse_battery_block decoded pos = Ok (battery, next) →
  length (Battery.cells battery) = Z.to_nat (Battery.cell_count battery)
  ∧ length (Battery.pack_temperatures battery)
    = Z.to_nat (Battery.pack_temp_sensor_count battery)
  ∧ next = pos + 132 + 4 * len (Battery.cells battery)
           + 4 * len (Battery.pack_temperatures battery).
Proof. apply parse_battery_block_consumed_lemma. Qed.

Lemma parse_battery_block_consumed_witness :
  ∃ battery,
    _parse_battery_block (response_prefix ++ doc_header ++ sample_block) 78
    = Ok (battery, 78 + 132 + 4 * 16 + 4 * 4)
    ∧ length (Battery.cells battery) = 16%nat
    ∧ length (Battery.pack_temperatures battery) = 4%nat.
Proof.
  assert (∃ r, _parse_battery_block (response_prefix ++ doc_header ++ sample_block) 78
               = Ok r) as [[battery next] Hp].
  { eexists. vm_compute. reflexivity. }
  destruct (parse_battery_block_consumed _ _ _ _ Hp) as (Hc & Ht & Hn).
  assert (Battery.cell_count battery = 16 ∧ Battery.pack_temp_sensor_count battery = 4)
    as [Hcc Htc].
  { vm_compute in Hp. injection Hp as <- _. by vm_compute. }
  rewrite Hcc in Hc. rewrite Htc in Ht.
  exists battery. unfold len in Hn. rewrite Hc, Ht in Hn.
  split; [| done]. rewrite Hp. do 2 f_equal. exact Hn.
Defined.

(** X9. Variable-length blocks: with [c] cells and [t] sensors announced
    by the two count bytes, a block of [132 + 4c + 4t] hexadecimal digits
    always parses; the [c] cell voltages are the 4-digit fields from
    offset 12 of the block, the [t] pack temperatures the signed 4-digit
    fields from offset [26 + 4c], and the next offset is the end of the
    block. *)
Theorem parse_battery_block_variable decoded p c t :
  0 ≤ c → 0 ≤ t →
  hex_window decoded p (132 + 4 * c + 4 * t) →
  read_int decoded (p + 10) (p + 12) = Ok c →
  read_int decoded (p + 24 + 4 * c) (p + 26 + 4 * c) = Ok t →
  ∃ battery,
    _parse_battery_block decoded p = Ok (battery, p + 132 + 4 * c + 4 * t)
    ∧ Battery.cells battery
      = map (λ k, unsigned_at decoded (p + 12 + 4 * Z.of_nat k) 1000)
            (seq 0 (Z.to_nat c))
    ∧ Battery.pack_temperatures battery
      = map (λ k, signed_at decoded (p + 26 + 4 * c + 4 * Z.of_nat k) 10)
            (seq 0 (Z.to_nat t)).
Proof.
  intros Hc Ht Hw Hcells Htemps. unfold _parse_battery_block. cbv zeta.
  norm_offsets. rewrite Hcells. repeat read_step Hw.
  rewrite (read_cells_hex decoded _ _ _ _ _ Hw) by lia.
  cbn [mbind result_bind]. rewrite !Z2Nat.id by lia. norm_offsets.
  assert (read_int decoded (p + 12 + 4 * c + 12) (p + 12 + 4 * c + 14) = Ok t) as ->
    by (rewrite <- Htemps; f_equal; lia).
  repeat read_step Hw.
  rewrite (read_pack_temps_hex decoded _ _ _ _ _ Hw) by lia.
  cbn [mbind result_bind]. rewrite !Z2Nat.id by lia. norm_offsets.
  repeat read_step Hw.
  eexists. split; [do 2 f_equal; lia |].
  cbn [Battery.cells Battery.pack_temperatures app]. split; [reflexivity |].
  apply map_ext. intros k. f_equal. lia.
Qed.

Lemma parse_battery_block_variable_witness :
  ∃ battery,
    _parse_battery_block (lit "0000641388" ++ lit "02" ++ lit "0CE40CE5"
                            ++ lit "00C800C900CA" ++ lit "01" ++ lit "00CB"
                            ++ concat (replicate 106 (lit "0"))) 0
    = Ok (battery, 0 + 132 + 4 * 2 + 4 * 1)
    ∧ length (Battery.cells battery) = 2%nat
    ∧ length (Battery.pack_temperatures battery) = 1%nat.
Proof.
  destruct (parse_battery_block_variable
              (lit "0000641388" ++ lit "02" ++ lit "0CE40CE5"
                 ++ lit "00C800C900CA" ++ lit "01" ++ lit "00CB"
                 ++ concat (replicate 106 (lit "0"))) 0 2 1)
    as (battery & Hp & Hcells & Htemps).
  - lia.
  - lia.
  - apply hex_window_check. reflexivity.
  - reflexivity.
  - reflexivity.
  - exists battery. rewrite Hcells, Htemps. split; [exact Hp |]. split; reflexivity.
Defined.

(** ** Truncated input *)

Lemma int16_raises s e : int16 s = Raise e → e = ValueError.
Proof.
  unfold int16. destruct (strip_sign (skip_spaces s)) as [sign s1].
  destruct (strip_prefix s1) as [| c r]; [by intros [= <-] |].
  destruct (is_underscore c); [by intros [= <-] |].
  destruct (scan_digits (c :: r) false 0 0) as [[[v nd] rest] |]; [| by intros [= <-]].
  destruct nd; [by intros [= <-] |]. destruct (skip_spaces rest); [done | by intros [= <-]].
Qed.

(** A slice [s[a:a+w]] has at most [w] elements, wherever it starts. *)
Lemma slice_ab_width {A} (s : list A) a w : 0 ≤ w → len (slice_ab s a (a + w)) ≤ w.
Proof.
  intros Hw. unfold slice_ab, slice, clamp_index, len. cbv zeta.
  rewrite length_take, length_drop.
  destruct (Z.ltb_spec a 0), (Z.ltb_spec (a + w) 0); lia.
Qed.

Lemma convert_signed_raises decoded pos scale e :
  Qeq_bool scale 0 = false →
  convert_signed decoded pos 4 scale = Raise e → e = ValueError.
Proof.
  intros Hs. unfold convert_signed.
  destruct (int16 (slice_ab decoded pos (pos + 4))) as [raw | e'] eqn:Hint.
  - cbn [mbind result_bind]. change (py_lshift 1 (4 * 4 - 1)) with (Ok (Z.shiftl 1 15)).
    cbn [mbind result_bind]. change (py_lshift 1 (4 * 4)) with (Ok (Z.shiftl 1 16)).
    apply int16_bound in Hint.
    pose proof (slice_ab_width decoded pos 4 ltac:(lia)) as Hw.
    assert (16 ^ len (slice_ab decoded pos (pos + 4)) ≤ 16 ^ 4) as Hp
      by (apply Z.pow_le_mono_r; [lia | exact Hw]).
    change (16 ^ 4) with 65536 in Hp. change (Z.shiftl 1 16) with 65536.
    assert (65536 + 65536 ≤ 2 ^ 52) as Hbig by (by vm_compute).
    destruct (Z.shiftl 1 15 <=? raw); cbn [mbind result_bind];
      rewrite py_truediv_small by (try done; lia); done.
  - cbn [mbind result_bind]. intros [= <-]. by eapply int16_raises.
Qed.

Lemma slice_ab_beyond {A} (s : list A) a b : 0 ≤ a → len s ≤ a → slice_ab s a b = [].
Proof.
  intros Ha Hl. unfold slice_ab, slice, clamp_index, len in *.
  destruct (Z.ltb_spec a 0); [lia |].
  rewrite (Z.min_r a) by lia. rewrite Nat2Z.id, drop_all. apply take_nil.
Qed.

Lemma read_int_beyond decoded a b :
  0 ≤ a → len decoded ≤ a → read_int decoded a b = Raise ValueError.
Proof. intros. unfold read_int. by rewrite slice_ab_beyond. Qed.

Ltac raise_step :=
  match goal with
  | |- (read_int ?d ?a ?b ≫= _) = Raise ValueError =>
      let E := fresh "E" in
      destruct (read_int d a b) as [? | ?] eqn:E; cbn [mbind result_bind];
      [| apply int16_raises in E; by subst]
  | |- (convert_signed ?d ?a 4 ?s ≫= _) = Raise ValueError =>
      let E := fresh "E" in
      destruct (convert_signed d a 4 s) as [? | ?] eqn:E; cbn [mbind result_bind];
      [| apply convert_signed_raises in E; [by subst | reflexivity]]
  end.

(** A string that ends before the battery-count byte has no header. *)
Lemma parse_header_block_short decoded pos :
  0 ≤ pos → len decoded ≤ pos + 64 →
  _parse_header_block decoded pos = Raise ValueError.
Proof.
  intros Hpos Hlen. unfold _parse_header_block.
  rewrite (read_int_beyond decoded (pos + 64)) by lia.
  repeat raise_step. reflexivity.
Qed.



Lemma decoded_of_length response :
  30 ≤ len response → len (decoded_of response) ≤ len response - 2.
Proof.
  intros Hl. unfold decoded_of, decode_ascii_ignore.
  pose proof (length_filter (λ c, is_ascii c = true) (slice_ab response 1 (-1))) as Hf.
  rewrite slice_ab_neg1 in * by lia.
  pose proof (slice_ab_length response 1 (len response - 1) ltac:(lia) ltac:(lia) ltac:(lia)).
  unfold len in *. lia.
Qed.

Lemma analog_response_passes line response :
  analog_response line = Some response →
  write_ok line = true ∧ passes_gates response = true ∧ 30 ≤ len response.
Proof.
  unfold analog_response. destruct (write_ok line); [| done].
  intros Hp%read_response_passes. split; [done |]. split; [done |].
  unfold passes_gates, min_response_length in Hp.
  apply andb_true_iff in Hp as [[_ H3%Z.leb_le]%andb_true_iff _]. done.
Qed.

(** X11. A response of at most 78 bytes that the read loop accepts (so of
    at least 30 bytes) makes the header parse raise: the cycle returns an
    empty snapshot, parses no battery block, and whatever the previous
    snapshot held is gone. *)
Theorem poll_cycle_short_response self line response :
  analog_response line = Some response →
  len response ≤ 78 →
  let c := _async_update_data self line in
  _parse_header_block (decoded_of response) 12 = Raise ValueError
  ∧ returned c = ∅
  ∧ data (coordinator c) = ∅
  ∧ parse_calls c = [].
Proof.
  intros Hresp Hlen. cbv zeta.
  destruct (analog_response_passes line response Hresp) as (_ & _ & Hmin).
  pose proof (decoded_of_length response Hmin) as Hdec.
  assert (_parse_header_block (decoded_of response) 12 = Raise ValueError) as Hhead.
  { apply parse_header_block_short; lia. }
  split; [exact Hhead |].
  unfold _async_update_data. rewrite send_command_query, Hresp.
  fold (decoded_of response). by rewrite Hhead.
Qed.

Lemma poll_cycle_short_response_witness :
  returned (_async_update_data after_first_poll (line_of response_truncated)) = ∅.
Proof.
  refine (proj1 (proj2 (poll_cycle_short_response after_first_poll
                          (line_of response_truncated) response_truncated _ _))).
  - by vm_compute.
  - by vm_compute.
Defined.

(** ** What a cycle stores *)

Lemma nominal_block_parses decoded p :
  nominal_block decoded p →
  ∃ battery, _parse_battery_block decoded p = Ok (battery, p + 212).
Proof.
  intros (Hw & Hc & Ht).
  destruct (parse_battery_block_hex decoded p Hw Hc Ht) as (battery & Hp & _).
  by exists battery.
Qed.

(** The first [k] iterations over [k] nominal blocks: each block is parsed
    at its own offset and stored under its own number, nothing else is
    touched, and the loop goes on behind the last of them. *)
Lemma battery_loop_nominal decoded k m i pos d calls :
  (∀ j, (j < k)%nat → nominal_block decoded (pos + 212 * Z.of_nat j)) →
  ∃ d',
    battery_loop decoded (k + m) i pos d calls
    = battery_loop decoded m (i + Z.of_nat k) (pos + 212 * Z.of_nat k) d'
        (calls ++ map (λ j, pos + 212 * Z.of_nat j) (seq 0 k))
    ∧ (∀ q, i < q ≤ i + Z.of_nat k →
         ∃ battery,
           _parse_battery_block decoded (pos + 212 * (q - i - 1))
           = Ok (battery, pos + 212 * (q - i))
           ∧ d' !! KInt q = Some (EBattery (_transform_battery_data battery q)))
    ∧ (∀ key, (∀ q, key = KInt q → ¬ i < q ≤ i + Z.of_nat k) → d' !! key = d !! key).
Proof.
  revert i pos d calls. induction k as [| k IH]; intros i pos d calls Hnom.
  - exists d. split; [| split].
    + simpl. rewrite app_nil_r. f_equal; lia.
    + intros q Hq. lia.
    + done.
  - destruct (nominal_block_parses decoded pos) as [battery Hparse].
    { specialize (Hnom 0%nat ltac:(lia)). by rewrite Z.mul_0_r, Z.add_0_r in Hnom. }
    destruct (IH (i + 1) (pos + 212)
                (<[KInt (i + 1) := EBattery (_transform_battery_data battery (i + 1))]> d)
                (calls ++ [pos])) as (d' & Hloop & Hin & Hout).
    { intros j Hj. specialize (Hnom (S j) ltac:(lia)).
      by replace (pos + 212 + 212 * Z.of_nat j) with (pos + 212 * Z.of_nat (S j)) by lia. }
    exists d'. split; [| split].
    + cbn [Nat.add battery_loop]. rewrite Hparse, Hloop.
      rewrite <- app_assoc. cbn [seq map app]. rewrite <- seq_shift, map_map.
      f_equal; [lia | lia |]. f_equal. f_equal; [lia |].
      apply map_ext. intros j. lia.
    + intros q Hq. destruct (Z.eq_dec q (i + 1)) as [-> | Hne].
      * exists battery. split.
        -- replace (pos + 212 * (i + 1 - i - 1)) with pos by lia.
           replace (pos + 212 * (i + 1 - i)) with (pos + 212) by lia. exact Hparse.
        -- rewrite Hout by (intros q [= ->]; lia). apply lookup_insert_eq.
      * destruct (Hin q ltac:(lia)) as (b & Hb & Hd'). exists b. split; [| done].
        replace (pos + 212 * (q - i - 1)) with (pos + 212 + 212 * (q - (i + 1) - 1)) by lia.
        replace (pos + 212 * (q - i)) with (pos + 212 + 212 * (q - (i + 1))) by lia.
        exact Hb.
    + intros key Hkey. rewrite Hout.
      * apply lookup_insert_ne. intros <-. apply (Hkey (i + 1)); [done | lia].
      * intros q -> Hq. apply (Hkey q); [done | lia].
Qed.

(** X12. A cycle over a response whose header parses: if the first [k]
    of the announced blocks are nominal blocks laid one after the other,
    and the parse raises behind them when fewer than announced are there,
    then the snapshot holds exactly the batteries 1 to [k], each the
    transformed record of the block at its own offset, beside the group
    and raw header entries; the parser is called once per nominal block
    and then, for every battery still announced, again at the offset
    where it first raised. *)
Theorem poll_cycle_nominal_blocks self line response header pos k :
  analog_response line = Some response →
  _parse_header_block (decoded_of response) 12 = Ok (header, pos) →
  (k ≤ Z.to_nat (Header.battery_count header))%nat →
  (∀ j, (j < k)%nat → nominal_block (decoded_of response) (pos + 212 * Z.of_nat j)) →
  ((k < Z.to_nat (Header.battery_count header))%nat →
   is_ok (_parse_battery_block (decoded_of response) (pos + 212 * Z.of_nat k)) = false) →
  let c := _async_update_data self line in
  (∀ q, 1 ≤ q ≤ Z.of_nat k →
     ∃ battery,
       _parse_battery_block (decoded_of response) (pos + 212 * (q - 1))
       = Ok (battery, pos + 212 * q)
       ∧ returned c !! KInt q = Some (EBattery (_transform_battery_data battery q)))
  ∧ (∀ q, ¬ 1 ≤ q ≤ Z.of_nat k → returned c !! KInt q = None)
  ∧ returned c !! KStr "group" = Some (EGroup (_transform_group_data header))
  ∧ returned c !! KStr "raw_system" = Some (ERaw header)
  ∧ parse_calls c
    = map (λ j, pos + 212 * Z.of_nat j) (seq 0 k)
      ++ replicate (Z.to_nat (Header.battery_count header) - k) (pos + 212 * Z.of_nat k)
  ∧ data (coordinator c) = returned c.
Proof.
  intros Hresp Hhead Hk Hnom Hfail. cbv zeta.
  unfold _async_update_data. rewrite send_command_query, Hresp.
  fold (decoded_of response). rewrite Hhead. cbn [set_data data].
  set (d0 := <[KStr "group" := _]> (<[KStr "raw_system" := _]> ∅)).
  replace (Z.to_nat (Header.battery_count header))
    with (k + (Z.to_nat (Header.battery_count header) - k))%nat by lia.
  set (m := (Z.to_nat (Header.battery_count header) - k)%nat) in *.
  destruct (battery_loop_nominal (decoded_of response) k m 0 pos d0 [] Hnom)
    as (d' & Hloop & Hin & Hout).
  rewrite Hloop.
  assert (battery_loop (decoded_of response) m (0 + Z.of_nat k) (pos + 212 * Z.of_nat k) d'
            ([] ++ map (λ j, pos + 212 * Z.of_nat j) (seq 0 k))
          = (d', map (λ j, pos + 212 * Z.of_nat j) (seq 0 k)
                 ++ replicate m (pos + 212 * Z.of_nat k))) as ->.
  { destruct m as [| m'] eqn:Hm; [by rewrite app_nil_r |].
    destruct (_parse_battery_block (decoded_of response) (pos + 212 * Z.of_nat k))
      as [r | e] eqn:Hp; [specialize (Hfail ltac:(lia)); done |].
    by rewrite (battery_loop_stuck _ _ _ _ _ _ e Hp). }
  cbn [returned parse_calls coordinator data set_data].
  split; [| split; [| split; [| split; [| split; [| reflexivity]]]]];
    [| | | | do 2 f_equal; lia].
  - intros q Hq. destruct (Hin q ltac:(lia)) as (b & Hb & Hd').
    exists b. split; [| done].
    replace (pos + 212 * (q - 1)) with (pos + 212 * (q - 0 - 1)) by lia.
    replace (pos + 212 * q) with (pos + 212 * (q - 0)) by lia. exact Hb.
  - intros q Hq. rewrite Hout by (intros q' [= ->]; lia). by subst d0.
  - rewrite Hout by done. subst d0. apply lookup_insert_eq.
  - rewrite Hout by done. subst d0. rewrite lookup_insert_ne by done. apply lookup_insert_eq.
Qed.

Lemma poll_cycle_nominal_blocks_witness :
  parse_calls (_async_update_data (__init__ 4 0) (line_of response_two)) = [78; 290].
Proof.
  assert (∃ r, _parse_header_block (decoded_of response_two) 12 = Ok r)
    as [[header pos] Hh].
  { eexists. vm_compute. reflexivity. }
  assert (pos = 78 ∧ Z.to_nat (Header.battery_count header) = 2%nat) as [-> Hn].
  { vm_compute in Hh. injection Hh as <- <-. by vm_compute. }
  pose proof (poll_cycle_nominal_blocks (__init__ 4 0) (line_of response_two)
                response_two header 78 2) as H.
  cbv zeta in H. rewrite Hn in H.
  refine (proj1 (proj2 (proj2 (proj2 (proj2 (H _ Hh _ _ _)))))).
  - by vm_compute.
  - lia.
  - intros j Hj. assert (j = 0 ∨ j = 1)%nat as [-> | ->] by lia.
    + split; [apply hex_window_check; by vm_compute | split; by vm_compute].
    + split; [apply hex_window_check; by vm_compute | split; by vm_compute].
  - intros Hlt. lia.
Defined.

(** The calls recorded so far stay where they are. *)
Lemma battery_loop_prefix decoded n i pos d calls k p :
  calls !! k = Some p → (battery_loop decoded n i pos d calls).2 !! k = Some p.
Proof.
  revert i pos d calls. induction n as [| n IH]; intros i pos d calls H.
  - exact H.
  - cbn [battery_loop].
    destruct (_parse_battery_block decoded pos) as [[battery pos'] | err];
      apply IH; by apply lookup_app_l_Some.
Qed.

(** An entry of the loop's dictionary was there before, or it is the
    block that the call of its number parsed. *)
Lemma battery_loop_entries decoded n i pos d calls key e :
  (battery_loop decoded n i pos d calls).1 !! key = Some e →
  d !! key = Some e
  ∨ ∃ q battery p next,
      key = KInt q ∧ i < q ≤ i + Z.of_nat n
      ∧ (battery_loop decoded n i pos d calls).2
          !! (length calls + Z.to_nat (q - i - 1))%nat = Some p
      ∧ _parse_battery_block decoded p = Ok (battery, next)
      ∧ e = EBattery (_transform_battery_data battery q).
Proof.
  revert i pos d calls. induction n as [| n IH]; intros i pos d calls H.
  - left. exact H.
  - cbn [battery_loop] in H |- *.
    destruct (_parse_battery_block decoded pos) as [[battery pos'] | err] eqn:Hparse.
    + apply IH in H as [H | (q & b & p & nx & -> & Hq & Hc & Hp & ->)].
      * destruct (decide (KInt (i + 1) = key)) as [<- | Hne].
        -- rewrite lookup_insert_eq in H. injection H as <-.
           right. exists (i + 1), battery, pos, pos'.
           split; [done |]. split; [lia |]. split; [| done].
           apply battery_loop_prefix.
           replace (i + 1 - i - 1) with 0 by lia.
           apply list_lookup_middle. simpl. lia.
        -- rewrite lookup_insert_ne in H by done. by left.
      * right. exists q, b, p, nx. split; [done |]. split; [lia |]. split; [| done].
        rewrite length_app in Hc. simpl in Hc.
        rewrite <- Hc. f_equal. lia.
    + apply IH in H as [H | (q & b & p & nx & -> & Hq & Hc & Hp & ->)]; [by left |].
      right. exists q, b, p, nx. split; [done |]. split; [lia |]. split; [| done].
      rewrite length_app in Hc. simpl in Hc.
      rewrite <- Hc. f_equal. lia.
Qed.

Lemma battery_loop_other_keys decoded n i pos d calls key :
  (∀ q, key ≠ KInt q) →
  (battery_loop decoded n i pos d calls).1 !! key = d !! key.
Proof.
  intros Hkey. revert i pos d calls. induction n as [| n IH]; intros i pos d calls.
  - reflexivity.
  - cbn [battery_loop].
    destruct (_parse_battery_block decoded pos) as [[battery pos'] | err].
    + rewrite IH. apply lookup_insert_ne. intros <-. by apply (Hkey (i + 1)).
    + apply IH.
Qed.

(** With a header that parses, the cycle is the loop over the batteries,
    started on the two header entries alone. *)
Lemma poll_cycle_loop self line response header pos :
  analog_response line = Some response →
  _parse_header_block (decoded_of response) 12 = Ok (header, pos) →
  (returned (_async_update_data self line), parse_calls (_async_update_data self line))
  = battery_loop (decoded_of response) (Z.to_nat (Header.battery_count header)) 0 pos
      (<[KStr "group" := EGroup (_transform_group_data header)]>
         (<[KStr "raw_system" := ERaw header]> ∅)) [].
Proof.
  intros Hresp Hhead.
  unfold _async_update_data. rewrite send_command_query, Hresp.
  fold (decoded_of response). rewrite Hhead. cbn [set_data data].
  by destruct (battery_loop _ _ _ _ _ _) as [d calls].
Qed.

(** X13. Whenever the header parses, the snapshot a cycle returns is
    built from this response alone. It holds the raw header under
    "raw_system" and its transformed copy under "group". Every other
    entry sits under a number [q] from 1 to the header's battery count and
    is the transformed record of the block that the [q]-th parser call of
    this cycle read from this response. The snapshot is the same whatever
    the coordinator held before: nothing of the previous snapshot
    survives. *)
Theorem poll_cycle_snapshot_keys self line response header pos :
  analog_response line = Some response →
  _parse_header_block (decoded_of response) 12 = Ok (header, pos) →
  let c := _async_update_data self line in
  returned c !! KStr "raw_system" = Some (ERaw header)
  ∧ returned c !! KStr "group" = Some (EGroup (_transform_group_data header))
  ∧ (∀ key e, returned c !! key = Some e →
       (key = KStr "raw_system" ∧ e = ERaw header)
       ∨ (key = KStr "group" ∧ e = EGroup (_transform_group_data header))
       ∨ ∃ q battery p next,
           key = KInt q ∧ 1 ≤ q ≤ Header.battery_count header
           ∧ parse_calls c !! Z.to_nat (q - 1) = Some p
           ∧ _parse_battery_block (decoded_of response) p = Ok (battery, next)
           ∧ e = EBattery (_transform_battery_data battery q))
  ∧ ∀ self', returned (_async_update_data self' line) = returned c.
Proof.
  intros Hresp Hhead. cbv zeta.
  pose proof (poll_cycle_loop self line response header pos Hresp Hhead) as Hc.
  set (d0 := <[KStr "group" := _]> (<[KStr "raw_system" := _]> ∅)) in Hc.
  pose proof (battery_loop_entries (decoded_of response)
                (Z.to_nat (Header.battery_count header)) 0 pos d0 []) as Hent.
  pose proof (battery_loop_other_keys (decoded_of response)
                (Z.to_nat (Header.battery_count header)) 0 pos d0 []) as Hoth.
  rewrite <- Hc in Hent, Hoth. cbn [fst snd] in Hent, Hoth.
  split; [| split; [| split]].
  - rewrite Hoth by done. subst d0. rewrite lookup_insert_ne by done. apply lookup_insert_eq.
  - rewrite Hoth by done. subst d0. apply lookup_insert_eq.
  - intros key e [H | (q & b & p & nx & -> & Hq & Hcall & Hp & ->)]%Hent.
    + subst d0. destruct (decide (KStr "group" = key)) as [<- | Hg].
      { rewrite lookup_insert_eq in H. injection H as <-. right. by left. }
      rewrite lookup_insert_ne in H by done.
      destruct (decide (KStr "raw_system" = key)) as [<- | Hr].
      { rewrite lookup_insert_eq in H. injection H as <-. by left. }
      rewrite lookup_insert_ne in H by done. by rewrite lookup_empty in H.
    + right. right. exists q, b, p, nx. split; [done |]. split; [lia |].
      split; [| done]. rewrite <- Hcall. f_equal. simpl. lia.
  - intros self'.
    pose proof (poll_cycle_loop self' line response header pos Hresp Hhead) as Hc'.
    fold d0 in Hc'. rewrite <- Hc in Hc'. by injection Hc'.
Qed.

Lemma poll_cycle_snapshot_keys_witness :
  ∃ header,
    returned (_async_update_data after_first_poll (line_of response_bad_first))
      !! KStr "raw_system" = Some (ERaw header).
Proof.
  assert (∃ r, _parse_header_block (decoded_of response_bad_first) 12 = Ok r)
    as [[header pos] Hh].
  { eexists. vm_compute. reflexivity. }
  exists header.
  refine (proj1 (poll_cycle_snapshot_keys after_first_poll (line_of response_bad_first)
                   response_bad_first header pos _ Hh)).
  by vm_compute.
Defined.

(** ** Signed fields *)

(** X14. Two's complement: on [d] hexadecimal digits, [d] up to 13 so
    that the number converts to a float as it is, [convert_signed] divides
    by the scale the one integer of the range
    [-2^(4d-1) .. 2^(4d-1) - 1] that is congruent to the unsigned value of
    the digits modulo [2^(4d)]. *)
Theorem convert_signed_range decoded pos d scale :
  0 ≤ pos → 0 < d → d ≤ 13 → pos + d ≤ len decoded →
  forallb hexdigit (slice_ab decoded pos (pos + d)) = true →
  ¬ (scale == 0)%Q →
  ∃ n, convert_signed decoded pos d scale = Ok (inject_Z n / scale)%Q
       ∧ - 2 ^ (4 * d - 1) ≤ n < 2 ^ (4 * d - 1)
       ∧ n mod 2 ^ (4 * d) = hex_value (slice_ab decoded pos (pos + d)).
Proof.
  intros Hpos Hd Hwide Hlen Hhex Hscale.
  rewrite (convert_signed_hex decoded pos d scale) by
    (try done; by apply not_true_is_false; rewrite Qeq_bool_iff).
  eexists. split; [reflexivity |].
  pose proof (hex_field_bounds decoded pos d Hpos Hd Hlen) as Hb.
  replace (d * 4) with (4 * d) in Hb by lia.
  assert (2 ^ (4 * d) = 2 * 2 ^ (4 * d - 1)) as Hhalf.
  { rewrite <- Z.pow_succ_r by lia. f_equal. lia. }
  set (v := hex_value _) in *. unfold signed_fold.
  destruct (Z.leb_spec (2 ^ (4 * d - 1)) v).
  - split; [lia |].
    replace (v - 2 ^ (4 * d)) with (v + (-1) * 2 ^ (4 * d)) by lia.
    rewrite Z.mod_add by lia. apply Z.mod_small. lia.
  - split; [lia |]. apply Z.mod_small. lia.
Qed.

Lemma convert_signed_range_witness :
  ∃ n, convert_signed (lit "00FF80") 2 4 10 = Ok (inject_Z n / 10)%Q
       ∧ - 2 ^ (4 * 4 - 1) ≤ n < 2 ^ (4 * 4 - 1).
Proof.
  destruct (convert_signed_range (lit "00FF80") 2 4 10) as (n & Hn & Hr & _).
  - lia.
  - lia.
  - lia.
  - vm_compute. discriminate.
  - reflexivity.
  - intros H. vm_compute in H. discriminate.
  - exists n. split; [exact Hn | exact Hr].
Defined.

(** X15. Errors of [convert_signed]: an empty field (the offset at or
    beyond the end of the string, or a length of zero) raises
    [ValueError], whatever the scale; a field of up to 13 hexadecimal
    digits, whose number converts to a float, raises [ZeroDivisionError]
    with a scale of zero. *)
Theorem convert_signed_errors decoded pos d scale :
  (slice_ab decoded pos (pos + d) = [] →
   convert_signed decoded pos d scale = Raise ValueError)
  ∧ (0 ≤ pos → 0 < d → d ≤ 13 → pos + d ≤ len decoded →
     forallb hexdigit (slice_ab decoded pos (pos + d)) = true →
     (scale == 0)%Q →
     convert_signed decoded pos d scale = Raise ZeroDivisionError).
Proof.
  split.
  - intros Hnil. unfold convert_signed. by rewrite Hnil.
  - intros Hpos Hd Hwide Hlen Hhex Hscale.
    rewrite convert_signed_steps by done.
    apply py_truediv_zero; [| by apply Qeq_bool_iff].
    pose proof (hex_field_bounds decoded pos d Hpos Hd Hlen) as Hb.
    pose proof (signed_fold_abs d _ Hb). pose proof (width_13_bits d Hd Hwide). lia.
Qed.

(** ** Log text of a frame *)

Lemma upper_hexdigit_char c :
  upper_hexdigit c = true → ∃ x : nat, (x < 16)%nat ∧ c = hex_char (Z.of_nat x).
Proof.
  intros H. rewrite <- (ascii_nat_embedding c).
  assert (48 ≤ ord c ≤ 57 ∨ 65 ≤ ord c ≤ 70) as Hr.
  { revert H. unfold upper_hexdigit. zcases. }
  unfold ord in Hr.
  destruct Hr as [Hr | Hr].
  - exists (nat_of_ascii c - 48)%nat. split; [lia |].
    assert (∃ x, nat_of_ascii c = 48 + x ∧ x < 10)%nat as (x & -> & Hx)
      by (exists (nat_of_ascii c - 48)%nat; lia).
    replace (48 + x - 48)%nat with x by lia.
    do 10 (destruct x as [| x]; [reflexivity |]). lia.
  - exists (nat_of_ascii c - 55)%nat. split; [lia |].
    assert (∃ x, nat_of_ascii c = 65 + x ∧ x < 6)%nat as (x & -> & Hx)
      by (exists (nat_of_ascii c - 65)%nat; lia).
    replace (65 + x - 55)%nat with (10 + x)%nat by lia.
    do 6 (destruct x as [| x]; [reflexivity |]). lia.
Qed.

Lemma upper_hexdigit_hexdigit c : upper_hexdigit c = true → hexdigit c = true.
Proof. unfold upper_hexdigit, hexdigit, digit_value. zcases. Qed.

(** Two upper-case digits read as a byte and written back with [02X] are
    the same two digits. *)
Lemma format_X_pair a b :
  upper_hexdigit a = true → upper_hexdigit b = true →
  int16 [a; b] = Ok (hex_value [a; b]) ∧ format_X 2 (hex_value [a; b]) = [a; b].
Proof.
  intros Ha Hb. split.
  - apply int16_hex; [| done]. simpl.
    by rewrite (upper_hexdigit_hexdigit a Ha), (upper_hexdigit_hexdigit b Hb).
  - destruct (upper_hexdigit_char a Ha) as (x & Hx & ->).
    destruct (upper_hexdigit_char b Hb) as (y & Hy & ->).
    do 16 (destruct x as [| x]; [do 16 (destruct y as [| y]; [by vm_compute |]); lia |]).
    lia.
Qed.

Lemma format_message_pairs pre s :
  forallb upper_hexdigit s = true →
  (∃ h : nat, length s = (2 * h)%nat) →
  ∃ formatted,
    traverse (λ i, int16 (slice_ab (pre ++ s) i (i + 2)))
      (map (λ k, len pre + 2 * Z.of_nat k) (seq 0 (length s / 2)))
    = Ok formatted
    ∧ concat (map (format_X 2) formatted) = s.
Proof.
  intros Hs [h Hh]. revert pre s Hs Hh.
  induction h as [| h IH]; intros pre s Hs Hh.
  - destruct s; [| done]. exists []. by simpl.
  - destruct s as [| a [| b r]]; [done | simpl in Hh; lia |].
    simpl in Hs. apply andb_true_iff in Hs as [Ha [Hb Hr]%andb_true_iff].
    destruct (format_X_pair a b Ha Hb) as [Hint Hfmt].
    destruct (IH (pre ++ [a; b]) r Hr ltac:(simpl in Hh; lia)) as (fs & Hfs & Hcat).
    exists (hex_value [a; b] :: fs). split.
    + replace (length (a :: b :: r) / 2)%nat with (S (length r / 2)).
      2:{ simpl length. replace (S (S (length r))) with (1 * 2 + length r)%nat by lia.
          by rewrite Nat.div_add_l by lia. }
      cbn [seq map traverse].
      replace (len pre + 2 * Z.of_nat 0) with (len pre) by lia.
      pose proof (slice_ab_app_mid pre [a; b] r) as Hmid.
      change (len [a; b]) with 2 in Hmid. cbn [app] in Hmid.
      rewrite Hmid, Hint. cbn [mbind result_bind].
      rewrite <- seq_shift, map_map.
      rewrite <- app_assoc in Hfs. cbn [app] in Hfs.
      assert (map (λ x, len pre + 2 * Z.of_nat (S x)) (seq 0 (length r / 2))
              = map (λ k, len (pre ++ [a; b]) + 2 * Z.of_nat k) (seq 0 (length r / 2)))
        as ->.
      { apply map_ext. intros k. unfold len. rewrite length_app. simpl. lia. }
      by rewrite Hfs.
    + simpl. by rewrite Hfmt, Hcat.
Qed.

(** X16. The log text of a well-formed frame is the frame without its
    last byte: for a body of an even number of upper-case hexadecimal
    digits between any first and last byte, [_format_message] returns "~"
    followed by the body, unchanged. *)
Theorem format_message_roundtrip first last (body : str) :
  forallb upper_hexdigit body = true →
  (∃ h : nat, length body = (2 * h)%nat) →
  _format_message (first :: body ++ [last]) = "~"%char :: body.
Proof.
  intros Hb [h Hh]. unfold _format_message. rewrite slice_ab_strip.
  rewrite decode_ascii_ok.
  2:{ apply forallb_Forall. apply forallb_Forall in Hb.
      eapply Forall_impl; [exact Hb |].
      intros c Hc. by apply hexdigit_ascii, upper_hexdigit_hexdigit. }
  cbn [mbind result_bind].
  destruct (format_message_pairs [] body Hb (ex_intro _ h Hh)) as (fs & Hfs & Hcat).
  cbn [app] in Hfs.
  assert (range2 (len body)
          = map (λ k, len ([] : str) + 2 * Z.of_nat k) (seq 0 (length body / 2)))
    as ->.
  { unfold range2.
    assert (Z.to_nat ((len body + 1) / 2) = (length body / 2)%nat) as ->.
    { unfold len. rewrite Hh.
      assert ((Z.of_nat (2 * h) + 1) / 2 = Z.of_nat h) as ->
        by (symmetry; apply (Z.div_unique _ _ _ 1); lia).
      rewrite Nat2Z.id. by rewrite Nat.mul_comm, Nat.div_mul by lia. }
    apply map_ext. intros k. unfold len. simpl. lia. }
  rewrite Hfs. cbn [mbind result_bind]. by rewrite Hcat.
Qed.

Lemma format_message_roundtrip_witness :
  _format_message (lit "~22004A42E002FFFCFE" ++ [EOI]) = lit "~22004A42E002FFFCFE".
Proof.
  apply (format_message_roundtrip SOI EOI (lit "22004A42E002FFFCFE")).
  - reflexivity.
  - exists 9%nat. reflexivity.
Defined.

(** ** Return codes *)

Lemma rtn_description_normal rtn :
  _get_rtn_description rtn = "Normal"%string ↔ rtn = lit "00".
Proof.
  unfold _get_rtn_description, rtn_codes. cbn [dict_get].
  repeat case_bool_decide; simpl; split; intros Hgoal; try done; try congruence.
Qed.

(** X17. The two return-code tables agree: a frame of at least ten bytes
    with a verified checksum is accepted by [_validate_response] exactly
    when [_get_rtn_description] describes the code in its CID2 position as
    "Normal", that is when the code is "00". *)
Theorem validate_response_normal response :
  10 ≤ len response → _verify_checksum response = true →
  (_validate_response response = true
   ↔ _get_rtn_description (return_code response) = "Normal"%string)
  ∧ (_validate_response response = true ↔ return_code response = lit "00").
Proof.
  intros Hl Hv. rewrite rtn_description_normal.
  rewrite (validate_response_spec response Hl Hv).
  by rewrite bool_decide_eq_true.
Qed.

Lemma validate_response_normal_witness :
  _validate_response response_two = true
  ↔ _get_rtn_description (return_code response_two) = "Normal"%string.
Proof.
  refine (proj1 (validate_response_normal response_two _ _)).
  - by vm_compute.
  - by vm_compute.
Defined.

(** ** Protocol version *)

Lemma send_command_ascii self command battery_number line :
  forallb is_ascii command = true →
  _send_command self command battery_number line = Ok (analog_response line).
Proof.
  intros Hc. unfold _send_command, analog_response.
  destruct (build_command_frame self command battery_number None Hc) as [_ ->].
  cbn [mbind result_bind]. destruct (write_ok line); [| done].
  destruct (_read_response (incoming line)) as [response |] eqn:Hr; [| done].
  apply read_response_passes in Hr. rewrite bool_decide_eq_false_2; [done |].
  intros ->. by vm_compute in Hr.
Qed.

(** A frame with SOI in front and EOI at the end is SOI, its inside and
    EOI. *)
Lemma framed_decompose f :
  framed f = true → 2 ≤ len f → f = SOI :: slice_ab f 1 (-1) ++ [EOI].
Proof.
  unfold framed, startswith, endswith. intros [Hs He]%andb_true_iff Hl.
  apply bool_decide_eq_true in Hs. apply andb_true_iff in He as [He _].
  apply bool_decide_eq_true in He.
  destruct f as [| c r]; [done |]. simpl in Hs. injection Hs as ->.
  destruct r as [| x r _] using rev_ind; [unfold len in Hl; simpl in Hl; lia |].
  rewrite slice_ab_strip. do 2 f_equal.
  simpl length in He. rewrite length_app in He. simpl length in He.
  replace (S (length r + 1) - 1)%nat with (S (length r)) in He by lia.
  simpl in He. rewrite drop_app_length in He. by injection He as ->.
Qed.

Lemma lstrip_keep c r : py_isspace c = false → lstrip (c :: r) = c :: r.
Proof. intros H. simpl. by rewrite H. Qed.

Lemma filter_forallb {A} (f : A → bool) (l : list A) :
  forallb f l = true → filter (λ x, f x = true) l = l.
Proof.
  induction l as [| x r IH]; [done |]. simpl. intros [Hx Hr]%andb_true_iff.
  rewrite filter_cons_True by done. by rewrite IH.
Qed.

(** Stripping keeps the first two characters when neither is blank. *)
Lemma py_strip_head a b r :
  py_isspace a = false → py_isspace b = false →
  ∃ t, py_strip (a :: b :: r) = a :: b :: t.
Proof.
  intros Ha Hb. unfold py_strip. rewrite (lstrip_keep a _ Ha).
  change (rev (a :: b :: r)) with ((rev r ++ [b]) ++ [a]).
  rewrite <- app_assoc. cbn [app].
  assert (∃ t, lstrip (rev r ++ [b; a]) = t ++ [b; a]) as [t ->].
  { induction (rev r) as [| c l IH].
    - simpl. rewrite Hb. by exists [].
    - simpl. destruct (py_isspace c); [exact IH |]. by exists (c :: l). }
  exists (rev t). by rewrite rev_app_distr.
Qed.

(** X18. The protocol version is the VER field: when the query gets a
    response (one that passed the four gates) whose two characters after
    SOI are not blank, [async_get_protocol_version] returns those two
    characters and stores them; when it gets none, it raises [ValueError]
    and the stored version is unchanged. *)
Theorem protocol_version_is_ver self line :
  (∀ response,
     analog_response line = Some response →
     forallb (λ c, negb (py_isspace c)) (slice_ab response 1 3) = true →
     async_get_protocol_version self line
     = (mkVersioned (engine self) (Some (slice_ab response 1 3)),
        Ok (slice_ab response 1 3)))
  ∧ (analog_response line = None →
     async_get_protocol_version self line = (self, Raise ValueError)).
Proof.
  unfold async_get_protocol_version.
  rewrite (send_command_ascii (engine self) (lit "4F") (Some 0) line eq_refl).
  split; [| by intros ->].
  intros response Hresp Hver. rewrite Hresp.
  destruct (analog_response_passes line response Hresp) as (_ & Hgates & Hmin).
  unfold passes_gates in Hgates.
  apply andb_true_iff in Hgates as [[[Hfr Hv]%andb_true_iff _]%andb_true_iff _].
  pose proof (framed_decompose response Hfr ltac:(lia)) as Hdec.
  unfold _verify_checksum, decode_ascii in Hv.
  remember (slice_ab response 1 (-1)) as inside eqn:Hinside.
  assert (forallb is_ascii inside = true) as Hin
    by (by destruct (forallb is_ascii inside)).
  clear Hinside Hv Hfr Hresp. subst response.
  assert (decode_ascii_ignore (SOI :: inside ++ [EOI]) = SOI :: inside ++ [EOI]) as ->.
  { unfold decode_ascii_ignore. apply filter_forallb.
    simpl. rewrite forallb_app, Hin. reflexivity. }
  rewrite slice_a_cons. rename Hmin into Hlen.
  destruct inside as [| a [| b rest]];
    [unfold len in Hlen; simpl in Hlen; lia | unfold len in Hlen; simpl in Hlen; lia |].
  pose proof (slice_ab_app_mid [SOI] [a; b] (rest ++ [EOI])) as Hmid.
  change (len [SOI]) with 1 in Hmid. change (1 + len [a; b]) with 3 in Hmid.
  cbn [app] in Hmid, Hver |- *. rewrite Hmid in Hver |- *.
  simpl in Hver. apply andb_true_iff in Hver as [Ha [Hb _]%andb_true_iff].
  apply negb_true_iff in Ha, Hb.
  destruct (py_strip_head a b (rest ++ [EOI]) Ha Hb) as [t ->].
  pose proof (slice_ab_app_mid ([] : str) [a; b] t) as Hmid0.
  change (len ([] : str)) with 0 in Hmid0. change (0 + len [a; b]) with 2 in Hmid0.
  cbn [app] in Hmid0. by rewrite Hmid0.
Qed.

Lemma protocol_version_is_ver_witness :
  async_get_protocol_version (mkVersioned (__init__ 4 0) None) (line_of response_two)
  = (mkVersioned (__init__ 4 0) (Some (lit "22")), Ok (lit "22")).
Proof.
  refine (proj1 (protocol_version_is_ver (mkVersioned (__init__ 4 0) None)
                   (line_of response_two)) response_two _ _).
  - by vm_compute.
  - by vm_compute.
Defined.

(** * Properties of the sensor decoders *)

(** The test [bitmask & (1 << i)] is the test of bit [i]. *)
Lemma truthy_land_bit bitmask i :
  0 ≤ i → truthy (Z.land bitmask (Z.shiftl 1 i)) = Z.testbit bitmask i.
Proof.
  intros Hi. rewrite Z.shiftl_1_l. unfold truthy.
  destruct (Z.testbit bitmask i) eqn:Hb.
  - apply negb_true_iff, Z.eqb_neq. intros H0.
    assert (Z.testbit (Z.land bitmask (2 ^ i)) i = true) as Hbit.
    { by rewrite Z.land_spec, Hb, Z.pow2_bits_true. }
    rewrite H0, Z.bits_0 in Hbit. done.
  - apply negb_false_iff, Z.eqb_eq. apply Z.bits_inj'. intros j Hj.
    rewrite Z.land_spec, Z.bits_0, Z.pow2_bits_eqb by done.
    destruct (Z.eqb_spec i j) as [<- | ?]; [by rewrite Hb | by rewrite andb_false_r].
Qed.









(** X20. [decode_status_bitmask] reads only the bits its mapping names:
    when every bit position of the mapping is non-negative it never
    raises, and two bit masks that agree on those positions get the same
    text (for the voltage table, bits 9 to 14 are ignored). *)
Theorem decode_status_bitmask_mapped_bits bitmask bitmask' (mapping : list (Z * str)) :
  (∀ bit, bit ∈ mapping.*1 →
          0 ≤ bit ∧ Z.testbit bitmask bit = Z.testbit bitmask' bit) →
  ∃ text, decode_status_bitmask bitmask mapping = Ok text
          ∧ decode_status_bitmask bitmask' mapping = Ok text.
Proof.
  intros Hbits.
  assert (∃ labels, status_labels bitmask mapping = Ok labels
                    ∧ status_labels bitmask' mapping = Ok labels) as (labels & H1 & H2).
  { induction mapping as [| [bit label] rest IH]; [by exists [] |].
    destruct IH as (labels & H1 & H2).
    { intros b Hb. apply Hbits. simpl. by right. }
    destruct (Hbits bit ltac:(simpl; by left)) as [Hpos Heq].
    cbn [status_labels]. unfold py_lshift.
    destruct (Z.ltb_spec bit 0); [lia |]. cbn [mbind result_bind].
    rewrite H1, H2. cbn [mbind result_bind].
    rewrite !truthy_land_bit by done. rewrite Heq. by eexists. }
  exists (join (lit ", ") labels). unfold decode_status_bitmask.
  by rewrite H1, H2.
Qed.

Lemma decode_status_bitmask_mapped_bits_witness :
  ∃ text, decode_status_bitmask 0x7E01 voltage_status_mapping = Ok text
          ∧ decode_status_bitmask 0x0001 voltage_status_mapping = Ok text.
Proof.
  apply (decode_status_bitmask_mapped_bits 0x7E01 0x0001 voltage_status_mapping).
  intros bit Hbit. simpl in Hbit.
  repeat (apply elem_of_cons in Hbit as [-> | Hbit]; [by vm_compute |]).
  by apply elem_of_nil in Hbit.
Defined.

(** X21. [decode_fet_status] always returns a text: the two bits of the
    current-limit field always select one of the four labels, so the
    dictionary subscript never fails; and only bits 0 to 5, 11 and 12 are
    read: masking the others away does not change the text. *)
Theorem decode_fet_status_total bitmask :
  is_Some (decode_fet_status bitmask)
  ∧ decode_fet_status (Z.land bitmask 0x183F) = decode_fet_status bitmask.
Proof.
  assert (∀ k, 0 ≤ k → Z.testbit 0x183F k = true →
               truthy (Z.land (Z.land bitmask 0x183F) (Z.shiftl 1 k))
               = truthy (Z.land bitmask (Z.shiftl 1 k))) as Hbit.
  { intros k Hk Hm. rewrite !truthy_land_bit by done.
    by rewrite Z.land_spec, Hm, andb_true_r. }
  assert (Z.land (Z.shiftr (Z.land bitmask 0x183F) 4) 3 = Z.land (Z.shiftr bitmask 4) 3)
    as Hcl.
  { rewrite Z.shiftr_land, <- Z.land_assoc. reflexivity. }
  split.
  - unfold decode_fet_status. cbv zeta.
    assert (0 ≤ Z.land (Z.shiftr bitmask 4) 3 < 4) as Hr.
    { change 3 with (Z.ones 2). rewrite Z.land_ones by lia.
      apply Z.mod_pos_bound. lia. }
    assert (Z.land (Z.shiftr bitmask 4) 3 = 0 ∨ Z.land (Z.shiftr bitmask 4) 3 = 1
            ∨ Z.land (Z.shiftr bitmask 4) 3 = 2 ∨ Z.land (Z.shiftr bitmask 4) 3 = 3)
      as [-> | [-> | [-> | ->]]] by lia; by eexists.
  - unfold decode_fet_status. cbv zeta. rewrite Hcl.
    rewrite !Hbit by (lia || reflexivity). reflexivity.
Qed.

(** ** From the wire to a sensor *)

Lemma battery_loop_low_keys decoded n i pos d calls key :
  (∀ q, key = KInt q → q ≤ i) →
  (battery_loop decoded n i pos d calls).1 !! key = d !! key.
Proof.
  intros Hkey. revert i pos d calls Hkey.
  induction n as [| n IH]; intros i pos d calls Hkey; [reflexivity |].
  cbn [battery_loop].
  destruct (_parse_battery_block decoded pos) as [[battery pos'] | err].
  - rewrite IH by (intros q Hq; specialize (Hkey q Hq); lia).
    apply lookup_insert_ne. intros <-. specialize (Hkey (i + 1) eq_refl). lia.
  - apply IH. intros q Hq. specialize (Hkey q Hq). lia.
Qed.

(** X22. From the wire to the cell-voltage sensor: after a cycle whose
    response holds [k] nominal blocks behind a header that announces at
    least [k] batteries, the sensor of cell [cell] (0-based) of battery
    [q], for [q] from 1 to [k], shows the four digits at offset
    [12 + 4 * cell] of the battery's block divided by 1000 when [cell] is
    below 16, and nothing for any other cell number. *)
Theorem cell_voltage_sensor_reads_block self line response header pos k q cell :
  analog_response line = Some response →
  _parse_header_block (decoded_of response) 12 = Ok (header, pos) →
  (k ≤ Z.to_nat (Header.battery_count header))%nat →
  (∀ j, (j < k)%nat → nominal_block (decoded_of response) (pos + 212 * Z.of_nat j)) →
  1 ≤ q ≤ Z.of_nat k →
  cell_voltage_native_value true (returned (_async_update_data self line)) q cell
  = if (0 <=? cell) && (cell <? 16) then
      Some (unsigned_at (decoded_of response) (pos + 212 * (q - 1) + 12 + 4 * cell) 1000)
    else None.
Proof.
  intros Hresp Hhead Hk Hnom Hq.
  unfold _async_update_data. rewrite send_command_query, Hresp.
  fold (decoded_of response). rewrite Hhead. cbn [set_data data].
  set (d0 := <[KStr "group" := _]> (<[KStr "raw_system" := _]> ∅)).
  replace (Z.to_nat (Header.battery_count header))
    with (k + (Z.to_nat (Header.battery_count header) - k))%nat by lia.
  set (m := (Z.to_nat (Header.battery_count header) - k)%nat).
  destruct (battery_loop_nominal (decoded_of response) k m 0 pos d0 [] Hnom)
    as (d' & Hloop & Hin & Hout).
  rewrite Hloop.
  pose proof (battery_loop_low_keys (decoded_of response) m (0 + Z.of_nat k)
                (pos + 212 * Z.of_nat k) d'
                ([] ++ map (λ j, pos + 212 * Z.of_nat j) (seq 0 k))) as Hlow.
  destruct (battery_loop _ m _ _ _ _) as [d calls]. cbn [fst returned] in *.
  destruct (Hin q ltac:(lia)) as (battery & Hparse & Hentry).
  assert (d !! KInt q = Some (EBattery (_transform_battery_data battery q))) as Hdq.
  { rewrite Hlow; [exact Hentry |]. intros q' [= <-]. lia. }
  assert (d !! KStr "group" = Some (EGroup (_transform_group_data header))) as Hg.
  { rewrite Hlow by done. rewrite Hout by done. subst d0. apply lookup_insert_eq. }
  specialize (Hnom (Z.to_nat (q - 1)) ltac:(lia)).
  rewrite Z2Nat.id in Hnom by lia.
  destruct Hnom as (Hw & Hc & Ht).
  destruct (parse_battery_block_hex _ _ Hw Hc Ht) as (battery' & Hparse' & _ & Hcells & _).
  replace (pos + 212 * (q - 0 - 1)) with (pos + 212 * (q - 1)) in Hparse by lia.
  rewrite Hparse' in Hparse. injection Hparse as <- _.
  unfold cell_voltage_native_value, available.
  rewrite Hdq. cbn [andb get_cell_voltages _transform_battery_data Sensor.cell_voltages].
  rewrite bool_decide_eq_false_2.
  2:{ intros ->. by rewrite lookup_empty in Hg. }
  rewrite bool_decide_eq_true_2 by eauto. cbn [negb andb].
  rewrite Hcells. unfold len. rewrite length_map, length_seq. change (Z.of_nat 16) with 16.
  destruct (Z.leb_spec 0 cell), (Z.ltb_spec cell 16); cbn [andb]; try done.
  rewrite list_lookup_fmap, lookup_seq_lt by lia. cbn [fmap option_fmap option_map Nat.add].
  do 2 f_equal. lia.
Qed.

Lemma cell_voltage_sensor_reads_block_witness :
  cell_voltage_native_value true
    (returned (_async_update_data (__init__ 4 0) (line_of response_two))) 2 15
  = Some (unsigned_at (decoded_of response_two) (78 + 212 * (2 - 1) + 12 + 4 * 15) 1000).
Proof.
  assert (∃ r, _parse_header_block (decoded_of response_two) 12 = Ok r)
    as [[header pos] Hh].
  { eexists. vm_compute. reflexivity. }
  assert (pos = 78 ∧ Z.to_nat (Header.battery_count header) = 2%nat) as [-> Hn].
  { vm_compute in Hh. injection Hh as <- <-. by vm_compute. }
  refine (cell_voltage_sensor_reads_block (__init__ 4 0) (line_of response_two)
            response_two header 78 2 2 15 _ Hh _ _ _).
  - by vm_compute.
  - lia.
  - intros j Hj. assert (j = 0 ∨ j = 1)%nat as [-> | ->] by lia.
    + split; [apply hex_window_check; by vm_compute | split; by vm_compute].
    + split; [apply hex_window_check; by vm_compute | split; by vm_compute].
  - lia.
Defined.

(** X23. Battery numbering: the record built from a parsed block carries
    the number read from the first two digits of the block plus one
    (wire 00 becomes battery 1), whatever number the caller passes; its
    cell count is the number of cell voltages read, and its sensor count
    is the count byte as read. *)
Theorem transform_battery_number decoded pos battery next battery_num :
  _parse_battery_block decoded pos = Ok (battery, next) →
  let record := _transform_battery_data battery battery_num in
  read_int decoded pos (pos + 2) = Ok (Sensor.number record - 1)
  ∧ Sensor.cell_count record = Z.max 0 (Battery.cell_count battery)
  ∧ Sensor.cell_count record = len (Sensor.cell_voltages record)
  ∧ Z.max 0 (Sensor.temp_count record) = len (Sensor.temperatures record)
  ∧ ∀ other, _transform_battery_data battery other = record.
Proof.
  intros Hparse. cbv zeta.
  destruct (parse_battery_block_consumed_lemma decoded pos battery next Hparse)
    as (Hc & Ht & _).
  unfold _parse_battery_block in Hparse. cbv zeta in Hparse.
  destruct (read_int decoded pos (pos + 2)) as [number | e] eqn:Hnum;
    [| discriminate Hparse].
  cbn [mbind result_bind] in Hparse. invert_reads Hparse.
  injection Hparse as <- _. cbn in *. unfold len.
  repeat split; try done; try lia. f_equal. lia.
Qed.

Lemma transform_battery_number_witness :
  ∃ battery,
    read_int (response_prefix ++ doc_header ++ sample_block) 78 (78 + 2)
    = Ok (Sensor.number (_transform_battery_data battery 7) - 1)
    ∧ Sensor.number (_transform_battery_data battery 7) = 1.
Proof.
  assert (∃ r, _parse_battery_block (response_prefix ++ doc_header ++ sample_block) 78
               = Ok r) as [[battery next] Hp].
  { eexists. vm_compute. reflexivity. }
  exists battery. split.
  - exact (proj1 (transform_battery_number _ _ _ _ 7 Hp)).
  - vm_compute in Hp. injection Hp as <- _. reflexivity.
Defined.
